(** * scripts/update_antigravity_version.py

    A shallow embedding of the version-update script and the properties of
    its specification.

    Layout:
    - [PyStr]    Python [str] values as lists of Unicode code points;
    - [Re]       the fragment of Python's [re] module the script uses
                 (backtracking matcher, [search], [sub] with its replacement
                 template);
    - [Script]   the script itself: the two compiled patterns, the four
                 functions and [main], over an explicit world (tracked file,
                 rendering collaborator) with a trace of effects;
    - [Notions], [Spec]  what the properties are stated with;
    - [ReFacts], [ReLoops], [Patterns], [Occurrences], [Runs]  lemmas;
    - the properties of the specification, one part per claim. *)

From Stdlib Require Import List NArith ZArith Bool Ascii String Lia Arith.
Import ListNotations.

Set Implicit Arguments.

(* ================================================================== *)
(** * Python strings *)
(* ================================================================== *)

Module PyStr.

(** A Python [str] is a sequence of Unicode code points. *)
Definition codepoint := N.
Definition pystr := list codepoint.

(** A character literal of the source. *)
Definition chr (a : ascii) : codepoint := N_of_ascii a.

(** A string literal of the source, as code points (the literals of the
    script are all ASCII). *)
Definition codes (s : string) : pystr :=
  map N_of_ascii (list_ascii_of_string s).

(** [str.__eq__]. *)
Fixpoint str_eqb (a b : pystr) : bool :=
  match a, b with
  | [], [] => true
  | x :: a', y :: b' => N.eqb x y && str_eqb a' b'
  | _, _ => false
  end.

(** First code points of the ranges of ten consecutive decimal digits
    (Unicode general category Nd, as of Unicode 14.0); the mathematical
    digits U+1D7CE..U+1D7FF form one further range of fifty.  The proofs
    below only use that [.], [/], [-], [a] and the backslash are no
    digits. *)
Definition nd_decades : list N :=
  [48; 1632; 1776; 1984; 2406; 2534; 2662; 2790; 2918; 3046; 3174; 3302;
   3430; 3558; 3664; 3792; 3872; 4160; 4240; 6112; 6160; 6470; 6608; 6784;
   6800; 6992; 7088; 7232; 7248; 42528; 43216; 43264; 43472; 43504; 43600;
   44016; 65296; 66720; 68912; 69734; 69872; 69942; 70096; 70384; 70736;
   70864; 71248; 71360; 71472; 71904; 72016; 72784; 73040; 73120; 92768;
   92864; 93008; 123200; 123632; 125264; 130032]%N.

(** What [\d] matches in a [str] pattern: any Unicode decimal digit, not
    only [0-9]. *)
Definition is_decimal (c : codepoint) : bool :=
  existsb (fun lo => N.leb lo c && N.leb c (lo + 9)) nd_decades
  || (N.leb 120782 c && N.leb c 120831).

(** Character sets of the replacement-template parser (ASCII only). *)
Definition is_ascii_digit (c : codepoint) : bool := N.leb 48 c && N.leb c 57.
Definition is_oct_digit (c : codepoint) : bool := N.leb 48 c && N.leb c 55.
Definition is_ascii_letter (c : codepoint) : bool :=
  (N.leb 65 c && N.leb c 90) || (N.leb 97 c && N.leb c 122).

(** The ranges of code points a Python identifier may start with:
    the underscore and the characters with the Unicode property
    [XID_Start] (as of Unicode 14.0). *)
Definition xid_start : list (N * N) :=
  [(65, 90); (95, 95); (97, 122); (170, 170); (181, 181); (186, 186);
   (192, 214); (216, 246); (248, 705); (710, 721); (736, 740); (748, 748);
   (750, 750); (880, 884); (886, 887); (891, 893); (895, 895); (902, 902);
   (904, 906); (908, 908); (910, 929); (931, 1013); (1015, 1153);
   (1162, 1327); (1329, 1366); (1369, 1369); (1376, 1416); (1488, 1514);
   (1519, 1522); (1568, 1610); (1646, 1647); (1649, 1747); (1749, 1749);
   (1765, 1766); (1774, 1775); (1786, 1788); (1791, 1791); (1808, 1808);
   (1810, 1839); (1869, 1957); (1969, 1969); (1994, 2026); (2036, 2037);
   (2042, 2042); (2048, 2069); (2074, 2074); (2084, 2084); (2088, 2088);
   (2112, 2136); (2144, 2154); (2160, 2183); (2185, 2190); (2208, 2249);
   (2308, 2361); (2365, 2365); (2384, 2384); (2392, 2401); (2417, 2432);
   (2437, 2444); (2447, 2448); (2451, 2472); (2474, 2480); (2482, 2482);
   (2486, 2489); (2493, 2493); (2510, 2510); (2524, 2525); (2527, 2529);
   (2544, 2545); (2556, 2556); (2565, 2570); (2575, 2576); (2579, 2600);
   (2602, 2608); (2610, 2611); (2613, 2614); (2616, 2617); (2649, 2652);
   (2654, 2654); (2674, 2676); (2693, 2701); (2703, 2705); (2707, 2728);
   (2730, 2736); (2738, 2739); (2741, 2745); (2749, 2749); (2768, 2768);
   (2784, 2785); (2809, 2809); (2821, 2828); (2831, 2832); (2835, 2856);
   (2858, 2864); (2866, 2867); (2869, 2873); (2877, 2877); (2908, 2909);
   (2911, 2913); (2929, 2929); (2947, 2947); (2949, 2954); (2958, 2960);
   (2962, 2965); (2969, 2970); (2972, 2972); (2974, 2975); (2979, 2980);
   (2984, 2986); (2990, 3001); (3024, 3024); (3077, 3084); (3086, 3088);
   (3090, 3112); (3114, 3129); (3133, 3133); (3160, 3162); (3165, 3165);
   (3168, 3169); (3200, 3200); (3205, 3212); (3214, 3216); (3218, 3240);
   (3242, 3251); (3253, 3257); (3261, 3261); (3293, 3294); (3296, 3297);
   (3313, 3314); (3332, 3340); (3342, 3344); (3346, 3386); (3389, 3389);
   (3406, 3406); (3412, 3414); (3423, 3425); (3450, 3455); (3461, 3478);
   (3482, 3505); (3507, 3515); (3517, 3517); (3520, 3526); (3585, 3632);
   (3634, 3634); (3648, 3654); (3713, 3714); (3716, 3716); (3718, 3722);
   (3724, 3747); (3749, 3749); (3751, 3760); (3762, 3762); (3773, 3773);
   (3776, 3780); (3782, 3782); (3804, 3807); (3840, 3840); (3904, 3911);
   (3913, 3948); (3976, 3980); (4096, 4138); (4159, 4159); (4176, 4181);
   (4186, 4189); (4193, 4193); (4197, 4198); (4206, 4208); (4213, 4225);
   (4238, 4238); (4256, 4293); (4295, 4295); (4301, 4301); (4304, 4346);
   (4348, 4680); (4682, 4685); (4688, 4694); (4696, 4696); (4698, 4701);
   (4704, 4744); (4746, 4749); (4752, 4784); (4786, 4789); (4792, 4798);
   (4800, 4800); (4802, 4805); (4808, 4822); (4824, 4880); (4882, 4885);
   (4888, 4954); (4992, 5007); (5024, 5109); (5112, 5117); (5121, 5740);
   (5743, 5759); (5761, 5786); (5792, 5866); (5870, 5880); (5888, 5905);
   (5919, 5937); (5952, 5969); (5984, 5996); (5998, 6000); (6016, 6067);
   (6103, 6103); (6108, 6108); (6176, 6264); (6272, 6312); (6314, 6314);
   (6320, 6389); (6400, 6430); (6480, 6509); (6512, 6516); (6528, 6571);
   (6576, 6601); (6656, 6678); (6688, 6740); (6823, 6823); (6917, 6963);
   (6981, 6988); (7043, 7072); (7086, 7087); (7098, 7141); (7168, 7203);
   (7245, 7247); (7258, 7293); (7296, 7304); (7312, 7354); (7357, 7359);
   (7401, 7404); (7406, 7411); (7413, 7414); (7418, 7418); (7424, 7615);
   (7680, 7957); (7960, 7965); (7968, 8005); (8008, 8013); (8016, 8023);
   (8025, 8025); (8027, 8027); (8029, 8029); (8031, 8061); (8064, 8116);
   (8118, 8124); (8126, 8126); (8130, 8132); (8134, 8140); (8144, 8147);
   (8150, 8155); (8160, 8172); (8178, 8180); (8182, 8188); (8305, 8305);
   (8319, 8319); (8336, 8348); (8450, 8450); (8455, 8455); (8458, 8467);
   (8469, 8469); (8472, 8477); (8484, 8484); (8486, 8486); (8488, 8488);
   (8490, 8505); (8508, 8511); (8517, 8521); (8526, 8526); (8544, 8584);
   (11264, 11492); (11499, 11502); (11506, 11507); (11520, 11557);
   (11559, 11559); (11565, 11565); (11568, 11623); (11631, 11631);
   (11648, 11670); (11680, 11686); (11688, 11694); (11696, 11702);
   (11704, 11710); (11712, 11718); (11720, 11726); (11728, 11734);
   (11736, 11742); (12293, 12295); (12321, 12329); (12337, 12341);
   (12344, 12348); (12353, 12438); (12445, 12447); (12449, 12538);
   (12540, 12543); (12549, 12591); (12593, 12686); (12704, 12735);
   (12784, 12799); (13312, 19903); (19968, 42124); (42192, 42237);
   (42240, 42508); (42512, 42527); (42538, 42539); (42560, 42606);
   (42623, 42653); (42656, 42735); (42775, 42783); (42786, 42888);
   (42891, 42954); (42960, 42961); (42963, 42963); (42965, 42969);
   (42994, 43009); (43011, 43013); (43015, 43018); (43020, 43042);
   (43072, 43123); (43138, 43187); (43250, 43255); (43259, 43259);
   (43261, 43262); (43274, 43301); (43312, 43334); (43360, 43388);
   (43396, 43442); (43471, 43471); (43488, 43492); (43494, 43503);
   (43514, 43518); (43520, 43560); (43584, 43586); (43588, 43595);
   (43616, 43638); (43642, 43642); (43646, 43695); (43697, 43697);
   (43701, 43702); (43705, 43709); (43712, 43712); (43714, 43714);
   (43739, 43741); (43744, 43754); (43762, 43764); (43777, 43782);
   (43785, 43790); (43793, 43798); (43808, 43814); (43816, 43822);
   (43824, 43866); (43868, 43881); (43888, 44002); (44032, 55203);
   (55216, 55238); (55243, 55291); (63744, 64109); (64112, 64217);
   (64256, 64262); (64275, 64279); (64285, 64285); (64287, 64296);
   (64298, 64310); (64312, 64316); (64318, 64318); (64320, 64321);
   (64323, 64324); (64326, 64433); (64467, 64605); (64612, 64829);
   (64848, 64911); (64914, 64967); (65008, 65017); (65137, 65137);
   (65139, 65139); (65143, 65143); (65145, 65145); (65147, 65147);
   (65149, 65149); (65151, 65276); (65313, 65338); (65345, 65370);
   (65382, 65437); (65440, 65470); (65474, 65479); (65482, 65487);
   (65490, 65495); (65498, 65500); (65536, 65547); (65549, 65574);
   (65576, 65594); (65596, 65597); (65599, 65613); (65616, 65629);
   (65664, 65786); (65856, 65908); (66176, 66204); (66208, 66256);
   (66304, 66335); (66349, 66378); (66384, 66421); (66432, 66461);
   (66464, 66499); (66504, 66511); (66513, 66517); (66560, 66717);
   (66736, 66771); (66776, 66811); (66816, 66855); (66864, 66915);
   (66928, 66938); (66940, 66954); (66956, 66962); (66964, 66965);
   (66967, 66977); (66979, 66993); (66995, 67001); (67003, 67004);
   (67072, 67382); (67392, 67413); (67424, 67431); (67456, 67461);
   (67463, 67504); (67506, 67514); (67584, 67589); (67592, 67592);
   (67594, 67637); (67639, 67640); (67644, 67644); (67647, 67669);
   (67680, 67702); (67712, 67742); (67808, 67826); (67828, 67829);
   (67840, 67861); (67872, 67897); (67968, 68023); (68030, 68031);
   (68096, 68096); (68112, 68115); (68117, 68119); (68121, 68149);
   (68192, 68220); (68224, 68252); (68288, 68295); (68297, 68324);
   (68352, 68405); (68416, 68437); (68448, 68466); (68480, 68497);
   (68608, 68680); (68736, 68786); (68800, 68850); (68864, 68899);
   (69248, 69289); (69296, 69297); (69376, 69404); (69415, 69415);
   (69424, 69445); (69488, 69505); (69552, 69572); (69600, 69622);
   (69635, 69687); (69745, 69746); (69749, 69749); (69763, 69807);
   (69840, 69864); (69891, 69926); (69956, 69956); (69959, 69959);
   (69968, 70002); (70006, 70006); (70019, 70066); (70081, 70084);
   (70106, 70106); (70108, 70108); (70144, 70161); (70163, 70187);
   (70272, 70278); (70280, 70280); (70282, 70285); (70287, 70301);
   (70303, 70312); (70320, 70366); (70405, 70412); (70415, 70416);
   (70419, 70440); (70442, 70448); (70450, 70451); (70453, 70457);
   (70461, 70461); (70480, 70480); (70493, 70497); (70656, 70708);
   (70727, 70730); (70751, 70753); (70784, 70831); (70852, 70853);
   (70855, 70855); (71040, 71086); (71128, 71131); (71168, 71215);
   (71236, 71236); (71296, 71338); (71352, 71352); (71424, 71450);
   (71488, 71494); (71680, 71723); (71840, 71903); (71935, 71942);
   (71945, 71945); (71948, 71955); (71957, 71958); (71960, 71983);
   (71999, 71999); (72001, 72001); (72096, 72103); (72106, 72144);
   (72161, 72161); (72163, 72163); (72192, 72192); (72203, 72242);
   (72250, 72250); (72272, 72272); (72284, 72329); (72349, 72349);
   (72368, 72440); (72704, 72712); (72714, 72750); (72768, 72768);
   (72818, 72847); (72960, 72966); (72968, 72969); (72971, 73008);
   (73030, 73030); (73056, 73061); (73063, 73064); (73066, 73097);
   (73112, 73112); (73440, 73458); (73648, 73648); (73728, 74649);
   (74752, 74862); (74880, 75075); (77712, 77808); (77824, 78894);
   (82944, 83526); (92160, 92728); (92736, 92766); (92784, 92862);
   (92880, 92909); (92928, 92975); (92992, 92995); (93027, 93047);
   (93053, 93071); (93760, 93823); (93952, 94026); (94032, 94032);
   (94099, 94111); (94176, 94177); (94179, 94179); (94208, 100343);
   (100352, 101589); (101632, 101640); (110576, 110579); (110581, 110587);
   (110589, 110590); (110592, 110882); (110928, 110930); (110948, 110951);
   (110960, 111355); (113664, 113770); (113776, 113788); (113792, 113800);
   (113808, 113817); (119808, 119892); (119894, 119964); (119966, 119967);
   (119970, 119970); (119973, 119974); (119977, 119980); (119982, 119993);
   (119995, 119995); (119997, 120003); (120005, 120069); (120071, 120074);
   (120077, 120084); (120086, 120092); (120094, 120121); (120123, 120126);
   (120128, 120132); (120134, 120134); (120138, 120144); (120146, 120485);
   (120488, 120512); (120514, 120538); (120540, 120570); (120572, 120596);
   (120598, 120628); (120630, 120654); (120656, 120686); (120688, 120712);
   (120714, 120744); (120746, 120770); (120772, 120779); (122624, 122654);
   (123136, 123180); (123191, 123197); (123214, 123214); (123536, 123565);
   (123584, 123627); (124896, 124902); (124904, 124907); (124909, 124910);
   (124912, 124926); (124928, 125124); (125184, 125251); (125259, 125259);
   (126464, 126467); (126469, 126495); (126497, 126498); (126500, 126500);
   (126503, 126503); (126505, 126514); (126516, 126519); (126521, 126521);
   (126523, 126523); (126530, 126530); (126535, 126535); (126537, 126537);
   (126539, 126539); (126541, 126543); (126545, 126546); (126548, 126548);
   (126551, 126551); (126553, 126553); (126555, 126555); (126557, 126557);
   (126559, 126559); (126561, 126562); (126564, 126564); (126567, 126570);
   (126572, 126578); (126580, 126583); (126585, 126588); (126590, 126590);
   (126592, 126601); (126603, 126619); (126625, 126627); (126629, 126633);
   (126635, 126651); (131072, 173791); (173824, 177976); (177984, 178205);
   (178208, 183969); (183984, 191456); (194560, 195101); (196608, 201546)]%N.

(** The further ranges an identifier may go on with: the characters
    with the property [XID_Continue] that are not in [xid_start]. *)
Definition xid_continue_only : list (N * N) :=
  [(48, 57); (183, 183); (768, 879); (903, 903); (1155, 1159); (1425, 1469);
   (1471, 1471); (1473, 1474); (1476, 1477); (1479, 1479); (1552, 1562);
   (1611, 1641); (1648, 1648); (1750, 1756); (1759, 1764); (1767, 1768);
   (1770, 1773); (1776, 1785); (1809, 1809); (1840, 1866); (1958, 1968);
   (1984, 1993); (2027, 2035); (2045, 2045); (2070, 2073); (2075, 2083);
   (2085, 2087); (2089, 2093); (2137, 2139); (2200, 2207); (2250, 2273);
   (2275, 2307); (2362, 2364); (2366, 2383); (2385, 2391); (2402, 2403);
   (2406, 2415); (2433, 2435); (2492, 2492); (2494, 2500); (2503, 2504);
   (2507, 2509); (2519, 2519); (2530, 2531); (2534, 2543); (2558, 2558);
   (2561, 2563); (2620, 2620); (2622, 2626); (2631, 2632); (2635, 2637);
   (2641, 2641); (2662, 2673); (2677, 2677); (2689, 2691); (2748, 2748);
   (2750, 2757); (2759, 2761); (2763, 2765); (2786, 2787); (2790, 2799);
   (2810, 2815); (2817, 2819); (2876, 2876); (2878, 2884); (2887, 2888);
   (2891, 2893); (2901, 2903); (2914, 2915); (2918, 2927); (2946, 2946);
   (3006, 3010); (3014, 3016); (3018, 3021); (3031, 3031); (3046, 3055);
   (3072, 3076); (3132, 3132); (3134, 3140); (3142, 3144); (3146, 3149);
   (3157, 3158); (3170, 3171); (3174, 3183); (3201, 3203); (3260, 3260);
   (3262, 3268); (3270, 3272); (3274, 3277); (3285, 3286); (3298, 3299);
   (3302, 3311); (3328, 3331); (3387, 3388); (3390, 3396); (3398, 3400);
   (3402, 3405); (3415, 3415); (3426, 3427); (3430, 3439); (3457, 3459);
   (3530, 3530); (3535, 3540); (3542, 3542); (3544, 3551); (3558, 3567);
   (3570, 3571); (3633, 3633); (3635, 3642); (3655, 3662); (3664, 3673);
   (3761, 3761); (3763, 3772); (3784, 3789); (3792, 3801); (3864, 3865);
   (3872, 3881); (3893, 3893); (3895, 3895); (3897, 3897); (3902, 3903);
   (3953, 3972); (3974, 3975); (3981, 3991); (3993, 4028); (4038, 4038);
   (4139, 4158); (4160, 4169); (4182, 4185); (4190, 4192); (4194, 4196);
   (4199, 4205); (4209, 4212); (4226, 4237); (4239, 4253); (4957, 4959);
   (4969, 4977); (5906, 5909); (5938, 5940); (5970, 5971); (6002, 6003);
   (6068, 6099); (6109, 6109); (6112, 6121); (6155, 6157); (6159, 6169);
   (6313, 6313); (6432, 6443); (6448, 6459); (6470, 6479); (6608, 6618);
   (6679, 6683); (6741, 6750); (6752, 6780); (6783, 6793); (6800, 6809);
   (6832, 6845); (6847, 6862); (6912, 6916); (6964, 6980); (6992, 7001);
   (7019, 7027); (7040, 7042); (7073, 7085); (7088, 7097); (7142, 7155);
   (7204, 7223); (7232, 7241); (7248, 7257); (7376, 7378); (7380, 7400);
   (7405, 7405); (7412, 7412); (7415, 7417); (7616, 7679); (8255, 8256);
   (8276, 8276); (8400, 8412); (8417, 8417); (8421, 8432); (11503, 11505);
   (11647, 11647); (11744, 11775); (12330, 12335); (12441, 12442);
   (42528, 42537); (42607, 42607); (42612, 42621); (42654, 42655);
   (42736, 42737); (43010, 43010); (43014, 43014); (43019, 43019);
   (43043, 43047); (43052, 43052); (43136, 43137); (43188, 43205);
   (43216, 43225); (43232, 43249); (43263, 43273); (43302, 43309);
   (43335, 43347); (43392, 43395); (43443, 43456); (43472, 43481);
   (43493, 43493); (43504, 43513); (43561, 43574); (43587, 43587);
   (43596, 43597); (43600, 43609); (43643, 43645); (43696, 43696);
   (43698, 43700); (43703, 43704); (43710, 43711); (43713, 43713);
   (43755, 43759); (43765, 43766); (44003, 44010); (44012, 44013);
   (44016, 44025); (64286, 64286); (65024, 65039); (65056, 65071);
   (65075, 65076); (65101, 65103); (65296, 65305); (65343, 65343);
   (65438, 65439); (66045, 66045); (66272, 66272); (66422, 66426);
   (66720, 66729); (68097, 68099); (68101, 68102); (68108, 68111);
   (68152, 68154); (68159, 68159); (68325, 68326); (68900, 68903);
   (68912, 68921); (69291, 69292); (69446, 69456); (69506, 69509);
   (69632, 69634); (69688, 69702); (69734, 69744); (69747, 69748);
   (69759, 69762); (69808, 69818); (69826, 69826); (69872, 69881);
   (69888, 69890); (69927, 69940); (69942, 69951); (69957, 69958);
   (70003, 70003); (70016, 70018); (70067, 70080); (70089, 70092);
   (70094, 70105); (70188, 70199); (70206, 70206); (70367, 70378);
   (70384, 70393); (70400, 70403); (70459, 70460); (70462, 70468);
   (70471, 70472); (70475, 70477); (70487, 70487); (70498, 70499);
   (70502, 70508); (70512, 70516); (70709, 70726); (70736, 70745);
   (70750, 70750); (70832, 70851); (70864, 70873); (71087, 71093);
   (71096, 71104); (71132, 71133); (71216, 71232); (71248, 71257);
   (71339, 71351); (71360, 71369); (71453, 71467); (71472, 71481);
   (71724, 71738); (71904, 71913); (71984, 71989); (71991, 71992);
   (71995, 71998); (72000, 72000); (72002, 72003); (72016, 72025);
   (72145, 72151); (72154, 72160); (72164, 72164); (72193, 72202);
   (72243, 72249); (72251, 72254); (72263, 72263); (72273, 72283);
   (72330, 72345); (72751, 72758); (72760, 72767); (72784, 72793);
   (72850, 72871); (72873, 72886); (73009, 73014); (73018, 73018);
   (73020, 73021); (73023, 73029); (73031, 73031); (73040, 73049);
   (73098, 73102); (73104, 73105); (73107, 73111); (73120, 73129);
   (73459, 73462); (92768, 92777); (92864, 92873); (92912, 92916);
   (92976, 92982); (93008, 93017); (94031, 94031); (94033, 94087);
   (94095, 94098); (94180, 94180); (94192, 94193); (113821, 113822);
   (118528, 118573); (118576, 118598); (119141, 119145); (119149, 119154);
   (119163, 119170); (119173, 119179); (119210, 119213); (119362, 119364);
   (120782, 120831); (121344, 121398); (121403, 121452); (121461, 121461);
   (121476, 121476); (121499, 121503); (121505, 121519); (122880, 122886);
   (122888, 122904); (122907, 122913); (122915, 122916); (122918, 122922);
   (123184, 123190); (123200, 123209); (123566, 123566); (123628, 123641);
   (125136, 125142); (125252, 125258); (125264, 125273); (130032, 130041);
   (917760, 917999)]%N.

Definition in_ranges (rs : list (N * N)) (c : codepoint) : bool :=
  existsb (fun r => N.leb (fst r) c && N.leb c (snd r)) rs.

(** [str.isidentifier]. *)
Definition is_identifier (s : pystr) : bool :=
  match s with
  | [] => false
  | c :: s' =>
      in_ranges xid_start c
      && forallb (fun d => in_ranges xid_start d
                           || in_ranges xid_continue_only d) s'
  end.

(** Longest prefix of [s] whose characters satisfy [p], and the rest. *)
Fixpoint span (p : codepoint -> bool) (s : pystr) : pystr * pystr :=
  match s with
  | c :: s' =>
      if p c then let (a, r) := span p s' in (c :: a, r) else ([], s)
  | [] => ([], [])
  end.

(** Does [s] start with a character satisfying [p]? *)
Definition starts_with (p : codepoint -> bool) (s : pystr) : bool :=
  match s with c :: _ => p c | [] => false end.

End PyStr.
Import PyStr.

(* ================================================================== *)
(** * The [re] fragment *)
(* ================================================================== *)

Module Re.

(** One-character items of a pattern. *)
Inductive atom :=
| Chr (c : codepoint)   (** an ordinary or escaped character: [a], [/], [\.] *)
| Digit.                (** [\d] *)

(** Patterns.  Every pattern of this fragment consumes at least one
    character, so no match is empty. *)
Inductive regex :=
| One (a : atom)             (** a single item *)
| Plus (a : atom)            (** [a+], greedy *)
| Cat (r1 r2 : regex)        (** concatenation *)
| Group (r : regex).         (** capturing group [( )]; the patterns of the
                                 script have exactly one, group 1 *)

Definition atom_test (a : atom) (c : codepoint) : bool :=
  match a with
  | Chr d => N.eqb c d
  | Digit => is_decimal c
  end.

(** The literal text [c cs] as a pattern. *)
Fixpoint lits (c : codepoint) (cs : pystr) : regex :=
  match cs with
  | [] => One (Chr c)
  | d :: cs' => Cat (One (Chr c)) (lits d cs')
  end.

(** Number of capturing groups ([Pattern.groups]). *)
Fixpoint groups (r : regex) : nat :=
  match r with
  | One _ | Plus _ => 0
  | Cat r1 r2 => groups r1 + groups r2
  | Group r' => S (groups r')
  end.

Section Matcher.
Variable A : Type.

(** A continuation receives the text matched by the sub-pattern, the
    remaining input and the current capture of group 1; [None] makes the
    matcher backtrack. *)
Definition cont := pystr -> pystr -> option pystr -> option A.

(** [a+]: take one more character while possible, and give characters
    back one at a time when the continuation fails. *)
Fixpoint plus_match (p : codepoint -> bool) (s acc : pystr)
         (g : option pystr) (k : cont) : option A :=
  match s with
  | c :: s' =>
      if p c then
        match plus_match p s' (acc ++ [c]) g k with
        | Some r => Some r
        | None => k (acc ++ [c]) s' g
        end
      else None
  | [] => None
  end.

Fixpoint rmatch (r : regex) (s : pystr) (g : option pystr) (k : cont)
  : option A :=
  match r with
  | One a =>
      match s with
      | c :: s' => if atom_test a c then k [c] s' g else None
      | [] => None
      end
  | Plus a => plus_match (atom_test a) s [] g k
  | Cat r1 r2 =>
      rmatch r1 s g (fun m1 s1 g1 =>
        rmatch r2 s1 g1 (fun m2 s2 g2 => k (m1 ++ m2) s2 g2))
  | Group r' => rmatch r' s g (fun m s' _ => k m s' (Some m))
  end.
End Matcher.

(** A match object: [m_whole] is [group(0)], [m_group1] is [group(1)]
    ([None] when the group took no part), [m_rest] the input after the
    match. *)
Record rematch := {
  m_whole : pystr;
  m_group1 : option pystr;
  m_rest : pystr
}.

(** [Pattern.match]: a match starting at the first character. *)
Definition match_at (r : regex) (s : pystr) : option rematch :=
  rmatch r s None
    (fun m s' g => Some {| m_whole := m; m_group1 := g; m_rest := s' |}).

(** [Pattern.search]: the match at the leftmost position that has one. *)
Fixpoint search (r : regex) (s : pystr) : option rematch :=
  match match_at r s with
  | Some m => Some m
  | None =>
      match s with
      | [] => None
      | _ :: s' => search r s'
      end
  end.

(** [Pattern.fullmatch], as a test. *)
Definition fullmatch (r : regex) (s : pystr) : bool :=
  match rmatch r s None
          (fun _ s' _ => match s' with [] => Some tt | _ => None end) with
  | Some _ => true
  | None => false
  end.

(** ** Replacement templates

    [Pattern.sub] with a string replacement processes backslash escapes in
    it before any matching takes place. *)

(** The tokens of the replacement string: a character, a backslash with
    the character after it, or a backslash that ends the string.  The
    scanner reads one token ahead and rejects the last kind ("bad escape
    (end of pattern)") when it loads it, that is when the token before
    it is consumed. *)
Inductive token := Plain (c : codepoint) | Esc (c : codepoint) | Dangling.

Fixpoint tokenize (t : pystr) : list token :=
  match t with
  | [] => []
  | c :: t1 =>
      if N.eqb c (chr "\") then
        match t1 with
        | [] => [Dangling]
        | d :: t2 => Esc d :: tokenize t2
        end
      else Plain c :: tokenize t1
  end.

(** A parsed template: literal characters and group references. *)
Inductive tpart := TLit (c : codepoint) | TGroup (i : nat).

Definition digit_val (c : codepoint) : N := (c - 48)%N.

(** [int(name)] for a name of ASCII digits. *)
Definition int_of_digits (ds : pystr) : N :=
  fold_left (fun n d => (10 * n + digit_val d)%N) ds 0%N.

(** The table [ESCAPES] of the parser. *)
Definition escape_char (c : codepoint) : option codepoint :=
  if N.eqb c (chr "a") then Some 7%N
  else if N.eqb c (chr "b") then Some 8%N
  else if N.eqb c (chr "f") then Some 12%N
  else if N.eqb c (chr "n") then Some 10%N
  else if N.eqb c (chr "r") then Some 13%N
  else if N.eqb c (chr "t") then Some 9%N
  else if N.eqb c (chr "v") then Some 11%N
  else if N.eqb c (chr "\") then Some (chr "\")
  else None.

(** Where the parser is: in replacement text, or inside the name of
    [\g<name>] with the characters read so far. *)
Inductive pmode := Text | GName (name : pystr).

(** What the parser raises on a template it rejects: [re.error], or
    [IndexError] for [\g<name>] with a name that is an identifier (the
    patterns of the script have no named group). *)
Inductive template_error := BadTemplate | UnknownGroupName.

Definition tcons (p : tpart) (o : list tpart + template_error) :=
  match o with
  | inl t => inl (p :: t)
  | inr e => inr e
  end.

(** [addgroup]: a reference to a group the pattern does not have is an
    error, raised before the rest of the template is read. *)
Definition addgroup (ngroups : nat) (i : N)
           (o : list tpart + template_error) :=
  if N.leb i (N.of_nat ngroups) then tcons (TGroup (N.to_nat i)) o
  else inr BadTemplate.

(** [parse_template], left to right: the first error met is the one
    raised.  Group names follow Python 3.12: a name of ASCII digits is a
    group number; any other name that is an identifier is looked up among
    the named groups, of which there are none; every other name is
    rejected. *)
Fixpoint parse_tokens (ngroups : nat) (m : pmode) (ts : list token)
  : list tpart + template_error :=
  match m, ts with
  | Text, [] => inl []
  | Text, Dangling :: _ => inr BadTemplate
  | Text, Plain c :: ts1 => tcons (TLit c) (parse_tokens ngroups Text ts1)
  | Text, Esc c :: ts1 =>
      if N.eqb c (chr "g") then
        match ts1 with
        | Plain d :: ts2 =>
            if N.eqb d (chr "<") then parse_tokens ngroups (GName []) ts2
            else inr BadTemplate
        | _ => inr BadTemplate
        end
      else if N.eqb c (chr "0") then
        match ts1 with
        | Plain d1 :: ts2 =>
            if is_oct_digit d1 then
              match ts2 with
              | Plain d2 :: ts3 =>
                  if is_oct_digit d2 then
                    tcons (TLit (N.land (8 * digit_val d1 + digit_val d2) 255))
                          (parse_tokens ngroups Text ts3)
                  else tcons (TLit (digit_val d1))
                             (parse_tokens ngroups Text ts2)
              | _ => tcons (TLit (digit_val d1))
                           (parse_tokens ngroups Text ts2)
              end
            else tcons (TLit 0%N) (parse_tokens ngroups Text ts1)
        | _ => tcons (TLit 0%N) (parse_tokens ngroups Text ts1)
        end
      else if is_ascii_digit c then
        match ts1 with
        | Plain d2 :: ts2 =>
            if is_ascii_digit d2 then
              match ts2 with
              | Plain d3 :: ts3 =>
                  if is_oct_digit c && is_oct_digit d2 && is_oct_digit d3 then
                    let v := (64 * digit_val c + 8 * digit_val d2
                              + digit_val d3)%N in
                    if N.ltb 255 v then inr BadTemplate
                    else tcons (TLit v) (parse_tokens ngroups Text ts3)
                  else addgroup ngroups (10 * digit_val c + digit_val d2)
                                (parse_tokens ngroups Text ts2)
              | _ => addgroup ngroups (10 * digit_val c + digit_val d2)
                              (parse_tokens ngroups Text ts2)
              end
            else addgroup ngroups (digit_val c)
                          (parse_tokens ngroups Text ts1)
        | _ => addgroup ngroups (digit_val c) (parse_tokens ngroups Text ts1)
        end
      else
        match escape_char c with
        | Some e => tcons (TLit e) (parse_tokens ngroups Text ts1)
        | None =>
            if is_ascii_letter c then inr BadTemplate
            else tcons (TLit (chr "\"))
                       (tcons (TLit c) (parse_tokens ngroups Text ts1))
        end
  | GName _, [] => inr BadTemplate
  | GName name, Plain c :: ts1 =>
      if N.eqb c (chr ">") then
        match ts1 with
        | Dangling :: _ => inr BadTemplate
        | _ =>
            match name with
            | [] => inr BadTemplate
            | _ =>
                if forallb is_ascii_digit name then
                  addgroup ngroups (int_of_digits name)
                           (parse_tokens ngroups Text ts1)
                else if is_identifier name then inr UnknownGroupName
                else inr BadTemplate
            end
        end
      else parse_tokens ngroups (GName (name ++ [c])) ts1
  | GName _, Esc _ :: _ => inr BadTemplate
  | GName _, Dangling :: _ => inr BadTemplate
  end.

Definition parse_template (ngroups : nat) (repl : pystr)
  : list tpart + template_error :=
  parse_tokens ngroups Text (tokenize repl).

(** [expand_template]: group 0 is the whole match; a group that took no
    part expands to the empty string. *)
Definition expand_part (m : rematch) (p : tpart) : pystr :=
  match p with
  | TLit c => [c]
  | TGroup 0 => m_whole m
  | TGroup _ => match m_group1 m with Some g => g | None => [] end
  end.

Definition expand (t : list tpart) (m : rematch) : pystr :=
  flat_map (expand_part m) t.

(** The loop of [Pattern.sub]: every match found from left to right is
    replaced and the scan resumes after it; text between matches is
    copied.  No match of this fragment is empty, so [length s] steps
    are enough ([sub_loop_fuel]). *)
Fixpoint sub_loop (fuel : nat) (r : regex) (t : list tpart) (s : pystr)
  : pystr :=
  match fuel with
  | O => s
  | S n =>
      match match_at r s with
      | Some m => expand t m ++ sub_loop n r t (m_rest m)
      | None =>
          match s with
          | [] => []
          | c :: s' => c :: sub_loop n r t s'
          end
      end
  end.

(** [Pattern.sub(repl, s)]: the new text, or the error of the template,
    which is parsed before any matching. *)
Definition sub_result (r : regex) (repl s : pystr)
  : pystr + template_error :=
  match parse_template (groups r) repl with
  | inl t => inl (sub_loop (List.length s) r t s)
  | inr e => inr e
  end.

(** The text [Pattern.sub(repl, s)] returns; [None] when it raises. *)
Definition sub (r : regex) (repl s : pystr) : option pystr :=
  match sub_result r repl s with
  | inl new => Some new
  | inr _ => None
  end.

End Re.
Import Re.

(* ================================================================== *)
(** * The script *)
(* ================================================================== *)

Module Script.

(** ** The world the script runs in *)

(** The tracked file [CONSTANTS_PATH], as the text [read_text] decodes
    and [write_text] encodes.  [Unreadable] is a path that exists but
    cannot be opened or read ([OSError]); [Undecodable] is a file whose
    bytes are no text in the encoding [read_text] uses
    ([UnicodeDecodeError]). *)
Inductive file_state :=
| Missing
| Unreadable
| Undecodable
| Contents (text : pystr).

(** How a [write_text] that fails does so.  [write_text] opens the file
    in mode ['w'], which truncates it, and then writes: either the open is
    refused and the file is as before, or the failure comes after the
    open and the file holds what reached it by then, [kept] (nothing, or a
    part of the text). *)
Inductive write_fault :=
| OpenRefused
| WriteTorn (kept : pystr).

(** What the rendering collaborator does when asked: the import fails,
    something inside the [with] block raises, or the page renders and the
    selector yields the [href] of the link ([None] for JavaScript's
    [null]). *)
Inductive page_state :=
| NoPlaywright
| PageError
| Rendered (href : option pystr).

Record world := {
  tracked : file_state;
  writable : bool;          (** does [write_text] on the tracked file succeed? *)
  fault : write_fault;      (** how it fails when it does not *)
  page : page_state
}.

(** The lines the script prints, one constructor per [print] call. *)
Inductive message :=
| PlaywrightNotInstalled          (** lines 46-47 *)
| NoTarballLink                   (** line 65 *)
| CannotParseHref (href : pystr)  (** line 74 *)
| ErrorFetching                   (** line 78 *)
| ConstantsNotFound               (** line 85 *)
| NoUserAgentVersion              (** line 93 *)
| NoChangesNeeded                 (** line 108 *)
| WouldUpdate (v : pystr)         (** line 112 *)
| Updated (v : pystr)             (** line 116 *)
| CannotParseURL (url : pystr)    (** line 125 *)
| CurrentVersion (v : pystr)      (** line 145 *)
| LatestVersion (v : pystr)       (** line 159 *)
| AlreadyUpToDate                 (** line 162 *)
| UpdateAvailable (cur latest : pystr). (** line 166 *)

(** Observable effects, most recent first in a trace. *)
Inductive event :=
| EExists                    (** [CONSTANTS_PATH.exists()] *)
| ERead                      (** [CONSTANTS_PATH.read_text()] *)
| EWrite (text : pystr)      (** [CONSTANTS_PATH.write_text(text)] *)
| EImport                    (** the import of the rendering collaborator *)
| EOut (m : message)         (** [print(...)] *)
| EErr (m : message).        (** [print(..., file=sys.stderr)] *)

(** The exceptions the script lets through: [OSError] from the file
    system, [UnicodeDecodeError] from [read_text], and [re.error] or
    [IndexError] from the replacement template of [sub]. *)
Inductive exn := OSError | UnicodeDecodeError | ReError | IndexError.

Definition template_exn (e : template_error) : exn :=
  match e with
  | BadTemplate => ReError
  | UnknownGroupName => IndexError
  end.

(** How a computation ends: with a value, by [sys.exit(code)], or with an
    exception nobody catches. *)
Inductive result (A : Type) :=
| Ret (a : A)
| Exit (code : Z)
| Raise (e : exn).
Arguments Ret {A} a.
Arguments Exit {A} code.
Arguments Raise {A} e.

Record state := { st_world : world; st_trace : list event }.

Definition M (A : Type) := state -> result A * state.

Definition ret {A} (a : A) : M A := fun st => (Ret a, st).

Definition bind {A B} (m : M A) (f : A -> M B) : M B :=
  fun st =>
    match m st with
    | (Ret a, st') => f a st'
    | (Exit c, st') => (Exit c, st')
    | (Raise e, st') => (Raise e, st')
    end.

Notation "x <- m ;; k" := (bind m (fun x => k))
  (at level 61, m at next level, right associativity).
Notation "m ;; k" := (bind m (fun _ => k))
  (at level 61, right associativity).

Definition emit (e : event) : M unit :=
  fun st => (Ret tt, {| st_world := st_world st;
                        st_trace := e :: st_trace st |}).

Definition print (m : message) : M unit := emit (EOut m).
Definition print_err (m : message) : M unit := emit (EErr m).

Definition sys_exit {A} (code : Z) : M A := fun st => (Exit code, st).

Definition raise {A} (e : exn) : M A := fun st => (Raise e, st).

Definition path_exists : M bool :=
  emit EExists ;;
  fun st => (Ret (match tracked (st_world st) with
                  | Missing => false
                  | _ => true
                  end), st).

Definition read_text : M pystr :=
  emit ERead ;;
  fun st => match tracked (st_world st) with
            | Contents text => (Ret text, st)
            | Undecodable => (Raise UnicodeDecodeError, st)
            | _ => (Raise OSError, st)
            end.

(** The world with the tracked file holding [text]. *)
Definition set_file (text : pystr) (w : world) : world :=
  {| tracked := Contents text; writable := writable w;
     fault := fault w; page := page w |}.

Definition write_text (text : pystr) : M unit :=
  emit (EWrite text) ;;
  fun st =>
    if writable (st_world st) then
      (Ret tt, {| st_world := set_file text (st_world st);
                  st_trace := st_trace st |})
    else
      match fault (st_world st) with
      | OpenRefused => (Raise OSError, st)
      | WriteTorn kept =>
          (Raise OSError, {| st_world := set_file kept (st_world st);
                             st_trace := st_trace st |})
      end.

(** Python's truth test on a [str | None]: the value when it is a
    non-empty string. *)
Definition truthy (o : option pystr) : option pystr :=
  match o with
  | Some (c :: s) => Some (c :: s)
  | _ => None
  end.

(** ** Constants *)

(** [\d+\.\d+\.\d+] *)
Definition three_numbers : regex :=
  Cat (Plus Digit)
      (Cat (One (Chr (chr ".")))
           (Cat (Plus Digit)
                (Cat (One (Chr (chr "."))) (Plus Digit)))).

(** [re.compile(r'antigravity/(\d+\.\d+\.\d+)')] *)
Definition VERSION_PATTERN : regex :=
  Cat (lits (chr "a") (codes "ntigravity/")) (Group three_numbers).

(** [re.compile(r'/(\d+\.\d+\.\d+)-\d+/')] *)
Definition TARBALL_VERSION_PATTERN : regex :=
  Cat (One (Chr (chr "/")))
      (Cat (Group three_numbers)
           (Cat (One (Chr (chr "-")))
                (Cat (Plus Digit) (One (Chr (chr "/")))))).

(** ** Functions *)

Definition fetch_latest_version : M (option pystr) :=
  emit EImport ;;
  fun st =>
    match page (st_world st) with
    | NoPlaywright => (print_err PlaywrightNotInstalled ;; ret None) st
    | PageError => (print_err ErrorFetching ;; ret None) st
    | Rendered href =>
        match truthy href with
        | None => (print_err NoTarballLink ;; ret None) st
        | Some href =>
            match search TARBALL_VERSION_PATTERN href with
            | Some m => ret (m_group1 m) st
            | None => (print_err (CannotParseHref href) ;; ret None) st
            end
        end
    end.

Definition get_current_version : M (option pystr) :=
  e <- path_exists ;;
  if negb e then print_err ConstantsNotFound ;; ret None
  else
    content <- read_text ;;
    match search VERSION_PATTERN content with
    | Some m => ret (m_group1 m)
    | None => print_err NoUserAgentVersion ;; ret None
    end.

Definition update_version (new_version : pystr) (dry_run : bool) : M bool :=
  e <- path_exists ;;
  if negb e then ret false
  else
    content <- read_text ;;
    match sub_result VERSION_PATTERN
                     (codes "antigravity/" ++ new_version) content with
    | inr e => raise (template_exn e)
    | inl new_content =>
        if str_eqb content new_content then print NoChangesNeeded ;; ret true
        else if dry_run then print (WouldUpdate new_version) ;; ret true
        else
          write_text new_content ;;
          print (Updated new_version) ;;
          ret true
    end.

Definition extract_version_from_url (url : pystr) : M (option pystr) :=
  match search TARBALL_VERSION_PATTERN url with
  | Some m => ret (m_group1 m)
  | None => print_err (CannotParseURL url) ;; ret None
  end.

(** The parsed command line ([args] of [main]). *)
Record args := {
  check : bool;
  dry_run : bool;
  version : option pystr;
  url : option pystr
}.

(** [if not x: sys.exit(1)] *)
Definition or_exit (o : option pystr) : M pystr :=
  match truthy o with
  | Some v => ret v
  | None => sys_exit 1
  end.

(** Lines 147-157 of [main]: "Determine latest version". *)
Definition determine_latest (a : args) : M pystr :=
  match truthy (version a) with
  | Some v => ret v
  | None =>
      match truthy (url a) with
      | Some u => latest <- extract_version_from_url u ;; or_exit latest
      | None => latest <- fetch_latest_version ;; or_exit latest
      end
  end.

Definition main (a : args) : M unit :=
  current <- get_current_version ;;
  current <- or_exit current ;;
  print (CurrentVersion current) ;;
  latest <- determine_latest a ;;
  print (LatestVersion latest) ;;
  if str_eqb current latest then print AlreadyUpToDate ;; sys_exit 0
  else if check a then print (UpdateAvailable current latest) ;; sys_exit 1
  else
    ok <- update_version latest (dry_run a) ;;
    if ok then sys_exit 0 else sys_exit 1.

(** ** Running *)

Definition run {A} (m : M A) (w : world) : result A * state :=
  m {| st_world := w; st_trace := [] |}.

(** The exit status of the process: an uncaught exception ends the
    interpreter with status 1, and falling off the end of the script with
    status 0. *)
Definition exit_status {A} (r : result A) : Z :=
  match r with
  | Ret _ => 0
  | Exit c => c
  | Raise _ => 1
  end.

Definition exit_code (a : args) (w : world) : Z :=
  exit_status (fst (run (main a) w)).

Definition final_file (a : args) (w : world) : file_state :=
  tracked (st_world (snd (run (main a) w))).

Definition trace_of (a : args) (w : world) : list event :=
  st_trace (snd (run (main a) w)).

Definition is_read (e : event) : bool :=
  match e with ERead => true | _ => false end.
Definition is_write (e : event) : bool :=
  match e with EWrite _ => true | _ => false end.

Definition reads (t : list event) : nat := List.length (filter is_read t).
Definition writes (t : list event) : nat := List.length (filter is_write t).

End Script.
Import Script.

(* ================================================================== *)
(** * Notions the properties are stated with *)
(* ================================================================== *)

Module Notions.

(** [pre] holds no position at which [r] matches, when [s] follows. *)
Definition no_match_in (r : regex) (pre s : pystr) : Prop :=
  forall p1 p2, pre = p1 ++ p2 -> p2 <> [] -> match_at r (p2 ++ s) = None.

(** The text [sub] produces once the template is parsed. *)
Definition sub_text (r : regex) (t : list tpart) (s : pystr) : pystr :=
  sub_loop (List.length s) r t s.

Definition no_backslash (t : pystr) : bool :=
  forallb (fun c => negb (N.eqb c (chr "\"))) t.

Definition dot : codepoint := chr ".".

(** The text [antigravity/] that the user-agent pattern starts with. *)
Definition prefix : pystr := codes "antigravity/".

(** [\d+\.\d+\.\d+] at the start of [s], read deterministically: the
    token and what follows it. *)
Definition numbers_at (s : pystr) : option (pystr * pystr) :=
  match span is_decimal s with
  | ((_ :: _) as a, d1 :: r1) =>
      if N.eqb d1 dot then
        match span is_decimal r1 with
        | ((_ :: _) as b, d2 :: r2) =>
            if N.eqb d2 dot then
              match span is_decimal r2 with
              | ((_ :: _) as c, r3) => Some (a ++ dot :: b ++ dot :: c, r3)
              | _ => None
              end
            else None
        | _ => None
        end
      else None
  | _ => None
  end.

(** A non-empty run of decimal digits. *)
Definition digits1 (a : pystr) : Prop := a <> [] /\ forallb is_decimal a = true.

(** Three runs of digits separated by dots. *)
Definition is_token (t : pystr) : Prop :=
  exists a b c,
    digits1 a /\ digits1 b /\ digits1 c /\ t = a ++ dot :: b ++ dot :: c.

(** VersionToken of the specification: a string that [\d+\.\d+\.\d+]
    matches in full. *)
Definition version_token (t : pystr) : bool := fullmatch three_numbers t.

(** A continuation is strict when it rejects every rest that starts with
    a decimal digit. *)
Definition strict A (k : cont A) : Prop :=
  forall m c r g, is_decimal c = true -> k m (c :: r) g = None.

Fixpoint strip_prefix (l s : pystr) : option pystr :=
  match l, s with
  | [], _ => Some s
  | c :: l', d :: s' => if N.eqb d c then strip_prefix l' s' else None
  | _ :: _, [] => None
  end.

Definition version_at (s : pystr) : option rematch :=
  match strip_prefix prefix s with
  | Some s1 =>
      match numbers_at s1 with
      | Some (t, r) =>
          Some {| m_whole := prefix ++ t; m_group1 := Some t; m_rest := r |}
      | None => None
      end
  | None => None
  end.

Definition slash : codepoint := chr "/".

Definition hyphen : codepoint := chr "-".

Definition tarball_at (s : pystr) : option rematch :=
  match s with
  | c :: s1 =>
      if N.eqb c slash then
        match numbers_at s1 with
        | Some (t, d :: r1) =>
            if N.eqb d hyphen then
              match span is_decimal r1 with
              | ((_ :: _) as b, e :: r2) =>
                  if N.eqb e slash then
                    Some {| m_whole := [c] ++ t ++ [d] ++ b ++ [e];
                            m_group1 := Some t;
                            m_rest := r2 |}
                  else None
              | _ => None
              end
            else None
        | _ => None
        end
      else None
  | [] => None
  end.

(** An occurrence of [antigravity/<token>] starts in [s] right after [p]. *)
Definition occurs_at (s p : pystr) : Prop :=
  exists t q, is_token t /\ s = p ++ prefix ++ t ++ q.

Definition has_occurrence (s : pystr) : Prop := exists p, occurs_at s p.

Definition occ_free (s : pystr) : Prop := forall p, ~ occurs_at s p.

(** [(g, t)]: the text [g] between the previous occurrence and this
    one, and the token [t] of this one. *)
Abbreviation segment := (pystr * pystr)%type (only parsing).

Fixpoint render (segs : list segment) (tail : pystr) : pystr :=
  match segs with
  | [] => tail
  | (g, t) :: segs' => g ++ prefix ++ t ++ render segs' tail
  end.

(** The cut is the one the scanner makes: gaps hold no occurrence and
    every token is complete (no digit follows it). *)
Fixpoint well_split (segs : list segment) (tail : pystr) : Prop :=
  match segs with
  | [] => occ_free tail
  | (g, t) :: segs' =>
      occ_free g /\ is_token t /\
      starts_with is_decimal (render segs' tail) = false /\
      well_split segs' tail
  end.

Definition set_tokens (x : pystr) (segs : list segment) : list segment :=
  map (fun seg => (fst seg, x)) segs.

Definition tokens (segs : list segment) : list pystr := map snd segs.

(** The exception [VERSION_PATTERN.sub] raises for a replacement it
    rejects. *)
Definition rejected_as (repl : pystr) : exn :=
  match parse_template (groups VERSION_PATTERN) repl with
  | inr e => template_exn e
  | inl _ => ReError
  end.

(** What a failed write leaves of the world. *)
Definition after_failed_write (w : world) : world :=
  match fault w with
  | OpenRefused => w
  | WriteTorn kept => set_file kept w
  end.

(** The state after more events. *)
Definition logged (evs : list event) (st : state) : state :=
  {| st_world := st_world st; st_trace := evs ++ st_trace st |}.

Fixpoint well_split_check (segs : list segment) (tail : pystr) : bool :=
  match segs with
  | [] => match search VERSION_PATTERN tail with None => true | _ => false end
  | (g, t) :: segs' =>
      match search VERSION_PATTERN g with None => true | _ => false end
      && version_token t
      && negb (starts_with is_decimal (render segs' tail))
      && well_split_check segs' tail
  end.

(** The current version [main] goes on with, if any (lines 141-143). *)
Definition current_of (w : world) : option pystr :=
  match fst (run get_current_version w) with
  | Ret o => truthy o
  | _ => None
  end.

(** The latest version [main] goes on with, if any (lines 147-157). *)
Definition latest_of (a : args) (w : world) : option pystr :=
  match fst (run (determine_latest a) w) with
  | Ret l => Some l
  | _ => None
  end.

End Notions.
Import Notions.

(* ================================================================== *)
(** * The specification's vocabulary *)
(* ================================================================== *)

Module Spec.

Definition said_no_changes (t : list event) : bool :=
  existsb (fun e => match e with EOut NoChangesNeeded => true | _ => false end) t.

(** The resolved latest version equals the current version. *)
Definition same_version (a : args) (w : world) : bool :=
  match current_of w, latest_of a w with
  | Some c, Some l => str_eqb c l
  | _, _ => false
  end.

(** The run reaches the patch step: both versions are known, they differ
    and the mode is not [--check]. *)
Definition reaches_patch (a : args) (w : world) : bool :=
  match current_of w, latest_of a w with
  | Some c, Some l => negb (str_eqb c l) && negb (check a)
  | _, _ => false
  end.

(** The text the patch step turns the file into, when a run gets
    there: the file's text with [antigravity/<latest>] in place of every
    occurrence. *)
Definition patched (a : args) (w : world) : option pystr :=
  match tracked w, latest_of a w with
  | Contents s, Some l => sub VERSION_PATTERN (codes "antigravity/" ++ l) s
  | _, _ => None
  end.




(** The specification's sources of the latest version (section 3). *)
Inductive VersionSource :=
| ExplicitValue (v : pystr)
| DownloadURL (u : pystr)
| LivePage.

(** The specification's choice (sections 4.3 and 6): [--version V]
    supplies the explicit value [V], [--url URL] the download URL, no flag
    the live page, and the first one present wins. *)
Definition select_source (a : args) : VersionSource :=
  match version a with
  | Some v => ExplicitValue v
  | None =>
      match url a with
      | Some u => DownloadURL u
      | None => LivePage
      end
  end.

(** The invocation with the flags that carry an empty value left out. *)
Definition drop_empty (a : args) : args :=
  {| check := check a; dry_run := dry_run a;
     version := truthy (version a); url := truthy (url a) |}.

(** The specification's resolver (section 4.3), one behaviour per source. *)
Definition resolve_latest (src : VersionSource) : M pystr :=
  match src with
  | ExplicitValue v => ret v
  | DownloadURL u => latest <- extract_version_from_url u ;; or_exit latest
  | LivePage => latest <- fetch_latest_version ;; or_exit latest
  end.

(** [antigravity/x] is the first occurrence in [s], and [x] is the whole
    token there: nothing before it holds an occurrence, and no digit
    follows it. *)
Definition first_token (s pre x post : pystr) : Prop :=
  s = pre ++ codes "antigravity/" ++ x ++ post /\
  version_token x = true /\
  occ_free pre /\
  starts_with is_decimal post = false.

(** A path segment [/<token>-<digits>/] starts in [u] right after [p]. *)
Definition segment_at (u p : pystr) : Prop :=
  exists t b q,
    version_token t = true /\ digits1 b /\
    u = p ++ [chr "/"] ++ t ++ [chr "-"] ++ b ++ [chr "/"] ++ q.

(** A check that no segment starts before position [n] of [u]. *)
Definition no_segment_before (u : pystr) (n : nat) : bool :=
  forallb (fun i => match match_at TARBALL_VERSION_PATTERN (skipn i u) with
                    | None => true
                    | Some _ => false
                    end)
          (seq 0 n).

(** ** Inputs the examples run on *)

Definition set_version_args : args :=
  {| check := false; dry_run := false;
     version := Some (codes "1.15.8"); url := None |}.

Definition world_1_15_7 : world :=
  {| tracked := Contents (codes "UA = antigravity/1.15.7 linux");
     writable := true; fault := OpenRefused;
     page := NoPlaywright |}.

Definition check_args : args :=
  {| check := true; dry_run := false;
     version := Some (codes "1.16.0"); url := None |}.

Definition world_1_15_8 : world :=
  {| tracked := Contents (codes "UA = antigravity/1.15.8 linux");
     writable := true; fault := OpenRefused;
     page := NoPlaywright |}.


Definition backref_args : args :=
  {| check := false; dry_run := true;
     version := Some (codes "\1"); url := None |}.

Definition both_flags_args : args :=
  {| check := false; dry_run := false;
     version := Some (codes "1.15.8");
     url := Some (codes "https://x/no-version-here/") |}.

Definition world_rust_const : world :=
  {| tracked := Contents (codes "pub const UA: &str = 'antigravity/1.15.8 linux';");
     writable := true; fault := OpenRefused;
     page := NoPlaywright |}.

Definition world_two_tokens : world :=
  {| tracked := Contents (codes "antigravity/1.2.3 antigravity/4.5.6");
     writable := true; fault := OpenRefused;
     page := NoPlaywright |}.

Definition world_one_token : world :=
  {| tracked := Contents (render [(codes "UA = ", codes "1.15.8")]
                                 (codes " linux"));
     writable := true; fault := OpenRefused;
     page := NoPlaywright |}.

Definition two_segments : list segment :=
  [(codes "// was ", codes "1.14.0"); (codes " UA = ", codes "1.15.7")].

Definition world_two_segments : world :=
  {| tracked := Contents (render two_segments (codes " linux"));
     writable := true; fault := OpenRefused;
     page := NoPlaywright |}.

Definition url_two_segments : pystr :=
  codes "https://x/1.0.0-1/2.0.0-2/linux-x64/Antigravity.tar.gz".

Definition url_stable : pystr :=
  codes "https://x/stable/1.16.2-99887766/linux-x64/Antigravity.tar.gz".

(** [--version '' --url <url_stable>]: a flag given with an empty value. *)
Definition empty_version_args : args :=
  {| check := false; dry_run := false;
     version := Some []; url := Some url_stable |}.

End Spec.
Import Spec.

(* ================================================================== *)
(** * Further notions *)
(* ================================================================== *)

Module More.

(** The world a run of [main] leaves. *)
Definition final_world (a : args) (w : world) : world :=
  st_world (snd (run (main a) w)).

(** The events that touch the tracked file. *)
Definition touches_file (e : event) : bool :=
  match e with
  | EExists | ERead | EWrite _ => true
  | _ => false
  end.

Definition file_events (t : list event) : list event := filter touches_file t.

(** A page whose download link is [href]. *)
Definition world_with_page (href : pystr) : world :=
  {| tracked := Contents (codes "UA = antigravity/1.15.7 linux");
     writable := true; fault := OpenRefused;
     page := Rendered (Some href) |}.

Definition world_missing : world :=
  {| tracked := Missing; writable := true; fault := OpenRefused;
     page := NoPlaywright |}.

Definition bad_url_args : args :=
  {| check := false; dry_run := false; version := None;
     url := Some (codes "https://x/latest/Antigravity.tar.gz") |}.

Definition same_version_args : args :=
  {| check := false; dry_run := false;
     version := Some (codes "1.15.7"); url := None |}.

(** [--version] with a template escape Python's [re] rejects. *)
Definition bad_template_args : args :=
  {| check := false; dry_run := false;
     version := Some (codes "\q"); url := None |}.

(** [--version] with a reference to a group name the pattern lacks. *)
Definition group_name_args : args :=
  {| check := false; dry_run := false;
     version := Some (codes "\g<foo>"); url := None |}.

(** A normal run that takes the latest version from a download URL. *)
Definition url_args : args :=
  {| check := false; dry_run := false;
     version := None; url := Some url_stable |}.

(** A run with no option: the latest version comes from the page. *)
Definition default_args : args :=
  {| check := false; dry_run := false; version := None; url := None |}.

End More.
Import More.

(* ================================================================== *)
(** * Facts about strings and the matcher *)
(* ================================================================== *)

Module ReFacts.

Lemma str_eqb_refl (a : pystr) : str_eqb a a = true.
Proof.
  induction a as [|x a IH]; simpl; [reflexivity|].
  now rewrite N.eqb_refl, IH.
Qed.

Lemma str_eqb_eq (a b : pystr) : str_eqb a b = true <-> a = b.
Proof.
  split; [|intros ->; apply str_eqb_refl].
  revert b; induction a as [|x a IH]; intros [|y b]; simpl; try discriminate.
  - reflexivity.
  - intros H. apply andb_true_iff in H as [Hx Hab].
    apply N.eqb_eq in Hx. f_equal; auto.
Qed.

Lemma str_eqb_neq (a b : pystr) : str_eqb a b = false <-> a <> b.
Proof.
  split.
  - intros H E. apply str_eqb_eq in E. congruence.
  - intros H. destruct (str_eqb a b) eqn:E; [|reflexivity].
    apply str_eqb_eq in E. contradiction.
Qed.

(** ** [span] *)

Section Span.
Variable p : codepoint -> bool.

Lemma span_app_eq (s a r : pystr) : span p s = (a, r) -> s = a ++ r.
Proof.
  revert a r; induction s as [|c s IH]; simpl; intros a r H.
  - now inversion H.
  - destruct (p c).
    + destruct (span p s) as [a' r'] eqn:E. inversion H; subst.
      simpl. f_equal. now apply IH.
    + now inversion H.
Qed.

Lemma span_all (s a r : pystr) : span p s = (a, r) -> forallb p a = true.
Proof.
  revert a r; induction s as [|c s IH]; simpl; intros a r H.
  - now inversion H.
  - destruct (p c) eqn:Hc.
    + destruct (span p s) as [a' r'] eqn:E. inversion H; subst.
      simpl. rewrite Hc. simpl. eapply IH; eauto.
    + now inversion H.
Qed.

Lemma span_stop (s a r : pystr) :
  span p s = (a, r) -> starts_with p r = false.
Proof.
  revert a r; induction s as [|c s IH]; simpl; intros a r H.
  - now inversion H.
  - destruct (p c) eqn:Hc.
    + destruct (span p s) as [a' r'] eqn:E. inversion H; subst.
      eapply IH; eauto.
    + inversion H; subst. simpl. exact Hc.
Qed.

Lemma span_max (a r : pystr) :
  forallb p a = true -> starts_with p r = false -> span p (a ++ r) = (a, r).
Proof.
  intros Ha Hr. induction a as [|c a IH]; simpl in *.
  - destruct r as [|c r]; simpl in *; [reflexivity|now rewrite Hr].
  - apply andb_true_iff in Ha as [Hc Ha]. rewrite Hc, (IH Ha). reflexivity.
Qed.

Lemma span_nil (s r : pystr) : span p s = ([], r) -> r = s.
Proof. intros H. now apply span_app_eq in H. Qed.

Lemma span_cons_starts (s a r : pystr) (c : codepoint) :
  span p s = (c :: a, r) -> starts_with p s = true.
Proof.
  destruct s as [|d s]; simpl; [discriminate|].
  destruct (p d); [reflexivity|discriminate].
Qed.
End Span.

(** ** The greedy loop *)

Section Plus.
Variable A : Type.
Variable p : codepoint -> bool.

(** No character to take: the loop fails. *)
Lemma plus_match_nil (s acc r : pystr) g (k : cont A) :
  span p s = ([], r) -> plus_match p s acc g k = None.
Proof.
  destruct s as [|c s]; simpl; [reflexivity|].
  destruct (p c); [|reflexivity].
  destruct (span p s); discriminate.
Qed.

(** The longest run is tried first. *)
Lemma plus_match_first (s : pystr) g (k : cont A) :
  forall acc a r x,
    span p s = (a, r) -> a <> [] -> k (acc ++ a) r g = Some x ->
    plus_match p s acc g k = Some x.
Proof.
  induction s as [|c s IH]; simpl; intros acc a r x Hs Ha Hk.
  - inversion Hs; subst. contradiction.
  - destruct (p c) eqn:Hc; [|inversion Hs; subst; contradiction].
    destruct (span p s) as [a' r'] eqn:E. inversion Hs; subst.
    destruct a' as [|c' a'].
    + rewrite (plus_match_nil _ _ _ _ E).
      apply span_nil in E. subst. exact Hk.
    + rewrite (IH (acc ++ [c]) (c' :: a') r x); try reflexivity;
        try discriminate.
      now rewrite <- app_assoc.
Qed.

(** When the continuation rejects every text that starts with one more
    character of the class, the longest run is the only candidate. *)
Lemma plus_match_strict g (k : cont A) :
  (forall m c r, p c = true -> k m (c :: r) g = None) ->
  forall s acc,
    plus_match p s acc g k =
    match span p s with
    | ([], _) => None
    | (a, r) => k (acc ++ a) r g
    end.
Proof.
  intros Hk. induction s as [|c s IH]; simpl; intros acc; [reflexivity|].
  destruct (p c) eqn:Hc; [|reflexivity].
  rewrite IH. destruct (span p s) as [a' r'] eqn:E.
  destruct a' as [|c' a'].
  - apply span_nil in E. now subst.
  - rewrite <- app_assoc. simpl.
    destruct (k (acc ++ c :: c' :: a') r' g) eqn:Ek; [reflexivity|].
    apply span_cons_starts in E.
    destruct s as [|d s]; simpl in E; [discriminate|].
    now apply Hk.
Qed.
End Plus.

(** ** Every match is a non-empty prefix of the input *)

Lemma plus_match_sound A (p : codepoint -> bool) (s : pystr) g (k : cont A) :
  forall acc x,
    plus_match p s acc g k = Some x ->
    exists m s', s = m ++ s' /\ m <> [] /\ k (acc ++ m) s' g = Some x.
Proof.
  induction s as [|c s IH]; simpl; intros acc x H; [discriminate|].
  destruct (p c); [|discriminate].
  destruct (plus_match p s (acc ++ [c]) g k) eqn:E.
  - inversion H; subst.
    destruct (IH _ _ E) as (m & s' & -> & _ & Hk).
    exists (c :: m), s'. repeat split; [discriminate|].
    now rewrite <- app_assoc in Hk.
  - exists [c], s. repeat split; [discriminate|exact H].
Qed.

Lemma rmatch_sound A (r : regex) :
  forall (s : pystr) g (k : cont A) x,
    rmatch r s g k = Some x ->
    exists m s' g', s = m ++ s' /\ m <> [] /\ k m s' g' = Some x.
Proof.
  induction r as [a|a|r1 IH1 r2 IH2|r IH]; simpl; intros s g k x H.
  - destruct s as [|c s]; [discriminate|].
    destruct (atom_test a c); [|discriminate].
    exists [c], s, g. repeat split; [discriminate|exact H].
  - apply plus_match_sound in H as (m & s' & -> & Hm & Hk).
    exists m, s', g. repeat split; assumption.
  - apply IH1 in H as (m1 & s1 & g1 & -> & Hm1 & H).
    apply IH2 in H as (m2 & s2 & g2 & -> & Hm2 & H).
    exists (m1 ++ m2), s2, g2. rewrite app_assoc. repeat split; [|exact H].
    destruct m1; [contradiction|discriminate].
  - apply IH in H as (m & s' & g' & -> & Hm & H).
    exists m, s', (Some m). repeat split; assumption.
Qed.

Lemma match_at_sound (r : regex) (s : pystr) (m : rematch) :
  match_at r s = Some m -> s = m_whole m ++ m_rest m /\ m_whole m <> [].
Proof.
  unfold match_at. intros H.
  apply rmatch_sound in H as (w & s' & g' & -> & Hw & H).
  inversion H; subst; simpl. split; [reflexivity|assumption].
Qed.

Lemma match_at_shorter (r : regex) (s : pystr) (m : rematch) :
  match_at r s = Some m -> List.length (m_rest m) < List.length s.
Proof.
  intros H. apply match_at_sound in H as [E Hw].
  rewrite E, length_app. destruct (m_whole m); [contradiction|simpl; lia].
Qed.

Lemma match_at_nil (r : regex) : match_at r [] = None.
Proof.
  destruct (match_at r []) eqn:E; [|reflexivity].
  apply match_at_shorter in E. simpl in E. lia.
Qed.

End ReFacts.
Import ReFacts.

(** * Facts about [search] and [sub] *)

Module ReLoops.

Lemma no_match_in_tail (r : regex) (c : codepoint) (pre s : pystr) :
  no_match_in r (c :: pre) s -> no_match_in r pre s.
Proof.
  intros H p1 p2 E Hp. apply (H (c :: p1) p2); [now rewrite E|assumption].
Qed.

Lemma no_match_in_head (r : regex) (c : codepoint) (pre s : pystr) :
  no_match_in r (c :: pre) s -> match_at r (c :: pre ++ s) = None.
Proof. intros H. apply (H [] (c :: pre)); [reflexivity|discriminate]. Qed.

Lemma search_here (r : regex) (s : pystr) (m : rematch) :
  match_at r s = Some m -> search r s = Some m.
Proof. intros H. destruct s; simpl; now rewrite H. Qed.

Lemma search_skip (r : regex) (pre s : pystr) :
  no_match_in r pre s -> search r (pre ++ s) = search r s.
Proof.
  induction pre as [|c pre IH]; intros H; [reflexivity|].
  simpl app. simpl search. rewrite (no_match_in_head H).
  apply IH. eapply no_match_in_tail; eauto.
Qed.

Lemma search_some_inv (r : regex) (s : pystr) (m : rematch) :
  search r s = Some m ->
  exists pre,
    s = pre ++ m_whole m ++ m_rest m /\
    match_at r (m_whole m ++ m_rest m) = Some m /\
    no_match_in r pre (m_whole m ++ m_rest m).
Proof.
  induction s as [|c s IH]; simpl.
  - rewrite match_at_nil. discriminate.
  - destruct (match_at r (c :: s)) as [m'|] eqn:E.
    + intros H; inversion H; subst.
      destruct (match_at_sound _ _ E) as [Es _].
      exists []. simpl. rewrite <- Es. repeat split; try assumption.
      intros p1 p2 Hp. destruct p1; destruct p2; try discriminate.
      intros Hn; contradiction.
    + intros H. destruct (IH H) as (pre & Es & Hm & Hn).
      exists (c :: pre). simpl. rewrite <- Es. repeat split; try assumption.
      intros p1 p2 Hp Hp2. destruct p1 as [|d p1]; simpl in Hp.
      * subst p2. simpl. now rewrite <- Es.
      * inversion Hp; subst. now apply (Hn p1 p2).
Qed.

Lemma search_none_inv (r : regex) (s : pystr) :
  search r s = None -> forall p1 p2, s = p1 ++ p2 -> match_at r p2 = None.
Proof.
  induction s as [|c s IH]; simpl; intros H p1 p2 E.
  - destruct p1; destruct p2; try discriminate. apply match_at_nil.
  - destruct (match_at r (c :: s)) eqn:Em; [discriminate|].
    destruct p1 as [|d p1]; simpl in E.
    + now subst.
    + inversion E; subst. now apply (IH H p1).
Qed.

Lemma search_none_intro (r : regex) (s : pystr) :
  (forall p1 p2, s = p1 ++ p2 -> match_at r p2 = None) -> search r s = None.
Proof.
  induction s as [|c s IH]; simpl; intros H.
  - now rewrite match_at_nil.
  - rewrite (H [] (c :: s) eq_refl). apply IH.
    intros p1 p2 E. apply (H (c :: p1) p2). now rewrite E.
Qed.

(** ** The substitution loop never runs out of steps *)

Lemma sub_loop_fuel (r : regex) (t : list tpart) :
  forall n k s,
    List.length s <= n -> List.length s <= k ->
    sub_loop n r t s = sub_loop k r t s.
Proof.
  induction n as [|n IH]; intros k s Hn Hk.
  - destruct s; [|simpl in Hn; lia].
    destruct k; simpl; [reflexivity|]. now rewrite match_at_nil.
  - destruct k as [|k].
    + destruct s; [|simpl in Hk; lia]. simpl. now rewrite match_at_nil.
    + simpl. destruct (match_at r s) as [m|] eqn:E.
      * apply match_at_shorter in E. f_equal. apply IH; lia.
      * destruct s as [|c s]; [reflexivity|]. simpl in *.
        f_equal. apply IH; lia.
Qed.

Lemma sub_text_nil (r : regex) (t : list tpart) : sub_text r t [] = [].
Proof. reflexivity. Qed.

Lemma sub_text_match (r : regex) (t : list tpart) (s : pystr) (m : rematch) :
  match_at r s = Some m ->
  sub_text r t s = expand t m ++ sub_text r t (m_rest m).
Proof.
  intros H. unfold sub_text. pose proof (match_at_shorter _ _ H) as Hl.
  destruct (List.length s) as [|n] eqn:En; [lia|].
  simpl. rewrite H. f_equal. apply sub_loop_fuel; lia.
Qed.

Lemma sub_text_nomatch (r : regex) (t : list tpart) (c : codepoint)
      (s : pystr) :
  match_at r (c :: s) = None ->
  sub_text r t (c :: s) = c :: sub_text r t s.
Proof. intros H. unfold sub_text. simpl. now rewrite H. Qed.

Lemma sub_text_skip (r : regex) (t : list tpart) (pre s : pystr) :
  no_match_in r pre s -> sub_text r t (pre ++ s) = pre ++ sub_text r t s.
Proof.
  induction pre as [|c pre IH]; intros H; [reflexivity|].
  simpl app. rewrite sub_text_nomatch by apply (no_match_in_head H).
  f_equal. apply IH. eapply no_match_in_tail; eauto.
Qed.

Lemma sub_unfold (r : regex) (repl s : pystr) :
  sub r repl s =
  match parse_template (groups r) repl with
  | inl t => Some (sub_text r t s)
  | inr _ => None
  end.
Proof.
  unfold sub, sub_result. now destruct (parse_template (groups r) repl).
Qed.

(** ** Templates without a backslash are literal *)

Lemma tokenize_plain (t : pystr) :
  no_backslash t = true -> tokenize t = map Plain t.
Proof.
  unfold no_backslash. induction t as [|c t IH]; simpl; intros H.
  - reflexivity.
  - apply andb_true_iff in H as [Hc Ht].
    change (chr "\") with 92%N in *.
    destruct (N.eqb c 92); [discriminate|].
    now rewrite IH.
Qed.

Lemma parse_tokens_plain (n : nat) (t : pystr) :
  parse_tokens n Text (map Plain t) = inl (map TLit t).
Proof.
  induction t as [|c t IH]; simpl; [reflexivity|]. now rewrite IH.
Qed.

Lemma parse_template_plain (n : nat) (t : pystr) :
  no_backslash t = true -> parse_template n t = inl (map TLit t).
Proof.
  intros H. unfold parse_template. rewrite (tokenize_plain _ H).
  apply parse_tokens_plain.
Qed.

Lemma expand_plain (t : pystr) (m : rematch) : expand (map TLit t) m = t.
Proof.
  unfold expand. induction t as [|c t IH]; simpl; [reflexivity|].
  now rewrite IH.
Qed.

End ReLoops.
Import ReLoops.

(** * The two patterns of the script *)

Module Patterns.

Lemma decimal_not_dot (c : codepoint) :
  is_decimal c = true -> N.eqb c dot = false.
Proof.
  intros H. destruct (N.eqb c dot) eqn:E; [|reflexivity].
  apply N.eqb_eq in E. subst. discriminate.
Qed.

Lemma three_numbers_unfold A (s : pystr) g (k : cont A) :
  rmatch three_numbers s g k =
  match span is_decimal s with
  | ((_ :: _) as a, d1 :: r1) =>
      if N.eqb d1 dot then
        match span is_decimal r1 with
        | ((_ :: _) as b, d2 :: r2) =>
            if N.eqb d2 dot then
              plus_match is_decimal r2 [] g
                (fun m s' g' => k (a ++ dot :: b ++ dot :: m) s' g')
            else None
        | _ => None
        end
      else None
  | _ => None
  end.
Proof.
  unfold three_numbers. simpl rmatch.
  change (atom_test Digit) with is_decimal. change 46%N with dot.
  rewrite plus_match_strict.
  2:{ intros m c r Hc. now rewrite (decimal_not_dot _ Hc). }
  destruct (span is_decimal s) as [[|a0 a] [|d1 r1]]; try reflexivity.
  simpl app. destruct (N.eqb d1 dot) eqn:E1; [|reflexivity].
  apply N.eqb_eq in E1. subst d1.
  rewrite plus_match_strict.
  2:{ intros m c r Hc. now rewrite (decimal_not_dot _ Hc). }
  destruct (span is_decimal r1) as [[|b0 b] [|d2 r2]]; try reflexivity.
  simpl app. destruct (N.eqb d2 dot) eqn:E2; [|reflexivity].
  apply N.eqb_eq in E2. subst d2. reflexivity.
Qed.

Ltac split_spans :=
  repeat match goal with
  | |- context [span is_decimal ?s] =>
      let a := fresh "a" in let r := fresh "r" in let E := fresh "Esp" in
      destruct (span is_decimal s) as [[|? a] r] eqn:E; try reflexivity;
      try discriminate
  | |- context [match ?r with [] => _ | _ :: _ => _ end] =>
      is_var r; destruct r; try reflexivity; try discriminate
  | |- context [N.eqb ?d dot] =>
      let E := fresh "Edot" in
      destruct (N.eqb d dot) eqn:E; try reflexivity; try discriminate
  end.

(** The matcher agrees with the deterministic reading whenever the
    continuation accepts the longest token ... *)
Lemma three_numbers_first A (s t r : pystr) g (k : cont A) x :
  numbers_at s = Some (t, r) -> k t r g = Some x ->
  rmatch three_numbers s g k = Some x.
Proof.
  rewrite three_numbers_unfold. unfold numbers_at. split_spans.
  intros H Hk. inversion H; subst.
  eapply plus_match_first; eauto. discriminate.
Qed.

(** ... fails when there is no token ... *)
Lemma three_numbers_none A (s : pystr) g (k : cont A) :
  numbers_at s = None -> rmatch three_numbers s g k = None.
Proof.
  rewrite three_numbers_unfold. unfold numbers_at. split_spans.
  intros _. eapply plus_match_nil; eauto.
Qed.

(** ... and never settles for a shorter token when the continuation is
    strict. *)
Lemma three_numbers_strict A (s : pystr) g (k : cont A) :
  strict k ->
  rmatch three_numbers s g k =
  match numbers_at s with
  | Some (t, r) => k t r g
  | None => None
  end.
Proof.
  intros Hk. rewrite three_numbers_unfold. unfold numbers_at.
  destruct (span is_decimal s) as [[|a0 a] [|d1 r1]]; try reflexivity.
  destruct (N.eqb d1 dot); [|reflexivity].
  destruct (span is_decimal r1) as [[|b0 b] [|d2 r2]]; try reflexivity.
  destruct (N.eqb d2 dot); [|reflexivity].
  rewrite plus_match_strict by (intros ? ? ? Hc; now apply Hk).
  destruct (span is_decimal r2) as [[|c0 c] r3]; reflexivity.
Qed.

(** ** Shape of what [numbers_at] reads *)

Lemma digits1_intro (c : codepoint) (a r s : pystr) :
  span is_decimal s = (c :: a, r) -> digits1 (c :: a).
Proof. intros H. split; [discriminate|]. eapply span_all; eauto. Qed.

Lemma numbers_at_shape (s t r : pystr) :
  numbers_at s = Some (t, r) ->
  is_token t /\ s = t ++ r /\ starts_with is_decimal r = false.
Proof.
  unfold numbers_at.
  destruct (span is_decimal s) as [[|a0 a] [|d1 r1]] eqn:E1; try discriminate.
  destruct (N.eqb d1 dot) eqn:D1; [|discriminate].
  destruct (span is_decimal r1) as [[|b0 b] [|d2 r2]] eqn:E2; try discriminate.
  destruct (N.eqb d2 dot) eqn:D2; [|discriminate].
  destruct (span is_decimal r2) as [[|c0 c] r3] eqn:E3; try discriminate.
  intros H; inversion H; subst; clear H.
  apply N.eqb_eq in D1, D2. subst d1 d2.
  split; [|split].
  - exists (a0 :: a), (b0 :: b), (c0 :: c).
    repeat split; try discriminate; try (eapply span_all; eauto).
  - apply span_app_eq in E1, E2, E3. subst s r1 r2.
    simpl. f_equal. repeat (rewrite <- app_assoc; simpl). reflexivity.
  - eapply span_stop; eauto.
Qed.

Lemma runs_app (a b c r : pystr) :
  (a ++ dot :: b ++ dot :: c) ++ r = a ++ dot :: b ++ dot :: c ++ r.
Proof.
  rewrite <- app_assoc. simpl. rewrite <- app_assoc. reflexivity.
Qed.

Lemma starts_with_dot (r : pystr) : starts_with is_decimal (dot :: r) = false.
Proof. reflexivity. Qed.

(** Reading three runs of digits, the last one followed by anything:
    the third run grows by the digits that follow it. *)
Lemma numbers_at_runs (a b c r : pystr) :
  digits1 a -> digits1 b -> digits1 c ->
  numbers_at (a ++ dot :: b ++ dot :: c ++ r) =
  Some (a ++ dot :: b ++ dot :: c ++ fst (span is_decimal r),
        snd (span is_decimal r)).
Proof.
  intros [Ha Hda] [Hb Hdb] [Hc Hdc]. unfold numbers_at.
  rewrite (span_max _ _ _ Hda (starts_with_dot _)).
  destruct a as [|a0 a]; [contradiction|].
  rewrite N.eqb_refl.
  rewrite (span_max _ _ _ Hdb (starts_with_dot _)).
  destruct b as [|b0 b]; [contradiction|].
  rewrite N.eqb_refl.
  destruct (span is_decimal r) as [c' r'] eqn:E.
  pose proof (span_all _ _ E) as Hc'. pose proof (span_stop _ _ E) as Hr'.
  rewrite (span_app_eq _ _ E), app_assoc.
  rewrite span_max; try assumption.
  - destruct c as [|c0 c]; [contradiction|]. reflexivity.
  - rewrite forallb_app. now rewrite Hdc, Hc'.
Qed.

Lemma span_stopped (r : pystr) :
  starts_with is_decimal r = false -> span is_decimal r = ([], r).
Proof. intros H. apply (span_max is_decimal [] r eq_refl H). Qed.

Lemma numbers_at_intro (t r : pystr) :
  is_token t -> starts_with is_decimal r = false ->
  numbers_at (t ++ r) = Some (t, r).
Proof.
  intros (a & b & c & Ha & Hb & Hc & ->) Hr.
  rewrite runs_app.
  rewrite numbers_at_runs by assumption.
  rewrite (span_stopped _ Hr). simpl. now rewrite app_nil_r.
Qed.

(** An occurrence of a token is always read, possibly as a longer one. *)
Lemma numbers_at_occ (t r : pystr) :
  is_token t -> exists t' r', numbers_at (t ++ r) = Some (t', r').
Proof.
  intros (a & b & c & Ha & Hb & Hc & ->).
  rewrite runs_app.
  rewrite numbers_at_runs by assumption. eauto.
Qed.

Lemma version_token_iff (t : pystr) : version_token t = true <-> is_token t.
Proof.
  unfold version_token, fullmatch.
  rewrite three_numbers_strict by (intros m c r g _; reflexivity).
  split.
  - destruct (numbers_at t) as [[t' r]|] eqn:E; [|discriminate].
    destruct r; [|discriminate]. intros _.
    apply numbers_at_shape in E as (Ht & Es & _).
    rewrite app_nil_r in Es. now subst.
  - intros Ht. pose proof (@numbers_at_intro t [] Ht eq_refl) as E.
    rewrite app_nil_r in E. now rewrite E.
Qed.


(** ** Literal text *)

Lemma strip_prefix_iff (l s s' : pystr) :
  strip_prefix l s = Some s' <-> s = l ++ s'.
Proof.
  revert s; induction l as [|c l IH]; intros s; simpl.
  - split; [intros H; now inversion H|intros ->; reflexivity].
  - destruct s as [|d s]; [split; discriminate|].
    destruct (N.eqb d c) eqn:E.
    + apply N.eqb_eq in E. subst d. rewrite IH.
      split; [intros ->; reflexivity|intros H; now inversion H].
    + split; [discriminate|]. intros H; inversion H; subst.
      rewrite N.eqb_refl in E. discriminate.
Qed.

Lemma strip_prefix_app (l s : pystr) : strip_prefix l (l ++ s) = Some s.
Proof. now apply strip_prefix_iff. Qed.

Lemma lits_unfold A (cs : pystr) :
  forall (c : codepoint) (s : pystr) g (k : cont A),
    rmatch (lits c cs) s g k =
    match strip_prefix (c :: cs) s with
    | Some s' => k (c :: cs) s' g
    | None => None
    end.
Proof.
  induction cs as [|d cs IH]; intros c s g k; simpl lits; cbn [rmatch].
  - destruct s as [|x s]; [reflexivity|]. simpl.
    destruct (N.eqb x c) eqn:E; [|reflexivity].
    apply N.eqb_eq in E. now subst.
  - destruct s as [|x s]; [reflexivity|].
    cbn [atom_test strip_prefix].
    destruct (N.eqb x c) eqn:E; [|reflexivity].
    apply N.eqb_eq in E. subst x. rewrite IH. reflexivity.
Qed.

(** ** The user-agent pattern, read deterministically *)

Lemma match_at_version (s : pystr) :
  match_at VERSION_PATTERN s = version_at s.
Proof.
  unfold match_at, VERSION_PATTERN, version_at. cbn [rmatch].
  rewrite lits_unfold.
  change (chr "a" :: codes "ntigravity/") with prefix.
  destruct (strip_prefix prefix s) as [s1|]; [|reflexivity].
  destruct (numbers_at s1) as [[t r]|] eqn:E.
  - eapply three_numbers_first; eauto.
  - now apply three_numbers_none.
Qed.

Lemma match_version_inv (s : pystr) (m : rematch) :
  match_at VERSION_PATTERN s = Some m ->
  exists t r,
    is_token t /\ starts_with is_decimal r = false /\
    s = prefix ++ t ++ r /\
    m = {| m_whole := prefix ++ t; m_group1 := Some t; m_rest := r |}.
Proof.
  rewrite match_at_version. unfold version_at.
  destruct (strip_prefix prefix s) as [s1|] eqn:E1; [|discriminate].
  destruct (numbers_at s1) as [[t r]|] eqn:E2; [|discriminate].
  intros H; inversion H; subst; clear H.
  apply strip_prefix_iff in E1.
  apply numbers_at_shape in E2 as (Ht & Es & Hr).
  exists t, r. subst. auto.
Qed.

Lemma match_version_intro (t r : pystr) :
  is_token t -> starts_with is_decimal r = false ->
  match_at VERSION_PATTERN (prefix ++ t ++ r) =
  Some {| m_whole := prefix ++ t; m_group1 := Some t; m_rest := r |}.
Proof.
  intros Ht Hr. rewrite match_at_version. unfold version_at.
  rewrite strip_prefix_app, (numbers_at_intro r Ht Hr). reflexivity.
Qed.

Lemma match_version_occ (t r : pystr) :
  is_token t -> match_at VERSION_PATTERN (prefix ++ t ++ r) <> None.
Proof.
  intros Ht. rewrite match_at_version. unfold version_at.
  rewrite strip_prefix_app.
  destruct (numbers_at_occ r Ht) as (t' & r' & ->). discriminate.
Qed.

(** ** The tarball-URL pattern, read deterministically *)

Lemma decimal_not_hyphen (c : codepoint) :
  is_decimal c = true -> N.eqb c hyphen = false.
Proof.
  intros H. destruct (N.eqb c hyphen) eqn:E; [|reflexivity].
  apply N.eqb_eq in E. subst. discriminate.
Qed.

Lemma decimal_not_slash (c : codepoint) :
  is_decimal c = true -> N.eqb c slash = false.
Proof.
  intros H. destruct (N.eqb c slash) eqn:E; [|reflexivity].
  apply N.eqb_eq in E. subst. discriminate.
Qed.

Lemma match_at_tarball (s : pystr) :
  match_at TARBALL_VERSION_PATTERN s = tarball_at s.
Proof.
  unfold match_at, TARBALL_VERSION_PATTERN, tarball_at. cbn [rmatch atom_test].
  change (chr "/") with slash. change (chr "-") with hyphen.
  destruct s as [|c s1]; [reflexivity|].
  destruct (N.eqb c slash); [|reflexivity].
  rewrite three_numbers_strict.
  2:{ intros m d r g Hd. now rewrite (decimal_not_hyphen _ Hd). }
  destruct (numbers_at s1) as [[t [|d r1]]|]; try reflexivity.
  destruct (N.eqb d hyphen); [|reflexivity].
  change (atom_test Digit) with is_decimal.
  rewrite plus_match_strict.
  2:{ intros m e r He. now rewrite (decimal_not_slash _ He). }
  destruct (span is_decimal r1) as [[|b0 b] [|e r2]]; reflexivity.
Qed.

Lemma match_tarball_inv (s : pystr) (m : rematch) :
  match_at TARBALL_VERSION_PATTERN s = Some m ->
  exists t b r,
    is_token t /\ digits1 b /\
    s = slash :: t ++ hyphen :: b ++ slash :: r /\
    m_group1 m = Some t /\ m_rest m = r.
Proof.
  rewrite match_at_tarball. unfold tarball_at.
  destruct s as [|c s1]; [discriminate|].
  destruct (N.eqb c slash) eqn:Ec; [|discriminate].
  destruct (numbers_at s1) as [[t [|d r1]]|] eqn:En; try discriminate.
  destruct (N.eqb d hyphen) eqn:Ed; [|discriminate].
  destruct (span is_decimal r1) as [[|b0 b] [|e r2]] eqn:Eb; try discriminate.
  destruct (N.eqb e slash) eqn:Ee; [|discriminate].
  intros H; inversion H; subst; clear H. simpl.
  apply N.eqb_eq in Ec, Ed, Ee. subst c d e.
  apply numbers_at_shape in En as (Ht & Es & _).
  exists t, (b0 :: b), r2. repeat split; try assumption; try discriminate.
  - eapply span_all; eauto.
  - subst s1. apply span_app_eq in Eb. now rewrite Eb.
Qed.

Lemma match_tarball_intro (t b r : pystr) :
  is_token t -> digits1 b ->
  exists m,
    match_at TARBALL_VERSION_PATTERN (slash :: t ++ hyphen :: b ++ slash :: r)
    = Some m /\ m_group1 m = Some t.
Proof.
  intros Ht [Hb Hdb]. rewrite match_at_tarball. unfold tarball_at.
  rewrite N.eqb_refl, (numbers_at_intro _ Ht) by reflexivity.
  rewrite N.eqb_refl, (span_max is_decimal b (slash :: r) Hdb eq_refl).
  destruct b as [|b0 b]; [contradiction|].
  rewrite N.eqb_refl. eexists; split; reflexivity.
Qed.

End Patterns.
Import Patterns.

(** * Occurrences of [antigravity/<token>] in a text *)

Module Occurrences.

Lemma prefix_eq :
  prefix = [97; 110; 116; 105; 103; 114; 97; 118; 105; 116; 121; 47]%N.
Proof. reflexivity. Qed.

Lemma token_chars (t : pystr) (c : codepoint) :
  is_token t -> In c t -> is_decimal c = true \/ c = dot.
Proof.
  intros (a & b & d & [_ Ha] & [_ Hb] & [_ Hd] & ->) Hin.
  rewrite forallb_forall in Ha, Hb, Hd.
  apply in_app_or in Hin as [H|[H|H]]; auto.
  apply in_app_or in H as [H|[H|H]]; auto.
Qed.

Lemma token_no_a (t : pystr) : is_token t -> ~ In 97%N t.
Proof.
  intros Ht Hin. destruct (token_chars _ Ht Hin) as [H|H]; discriminate.
Qed.

Lemma token_nonempty (t : pystr) : is_token t -> t <> [].
Proof.
  intros (a & b & d & [Ha _] & _ & _ & ->).
  destruct a; [contradiction|discriminate].
Qed.

(** The text [antigravity/] overlaps neither itself nor a token: an
    occurrence that starts before a later [antigravity/] ends before it. *)
Lemma occurrence_inside (u v t r : pystr) :
  u <> [] -> is_token t ->
  u ++ prefix ++ v = prefix ++ t ++ r ->
  exists u', u = prefix ++ t ++ u'.
Proof.
  intros Hu Ht H. rewrite prefix_eq in *.
  destruct u as [|c u]; [contradiction|clear Hu].
  simpl in H. injection H as -> H.
  do 11 (destruct u as [|c u]; [discriminate H|];
         simpl in H; injection H as -> H).
  apply app_eq_app in H as [l [[-> _]|[-> H]]].
  - exists l. reflexivity.
  - destruct l as [|c l].
    + exists []. now rewrite !app_nil_r.
    + simpl in H. injection H as <- _. exfalso.
      apply (token_no_a Ht). apply in_or_app. right. now left.
Qed.

(** No match starts inside a text free of occurrences, whether the text
    ends there or another [antigravity/] follows. *)
Lemma occ_free_no_match_end (g : pystr) :
  occ_free g -> no_match_in VERSION_PATTERN g [].
Proof.
  intros Hg p1 p2 -> _.
  destruct (match_at VERSION_PATTERN (p2 ++ [])) as [m|] eqn:E; [|reflexivity].
  apply match_version_inv in E as (t & r & Ht & _ & Es & _).
  rewrite app_nil_r in Es. exfalso. apply (Hg p1).
  exists t, r. split; [assumption|now rewrite Es].
Qed.

Lemma occ_free_no_match (g v : pystr) :
  occ_free g -> no_match_in VERSION_PATTERN g (prefix ++ v).
Proof.
  intros Hg p1 p2 -> Hp2.
  destruct (match_at VERSION_PATTERN (p2 ++ prefix ++ v)) as [m|] eqn:E;
    [|reflexivity].
  apply match_version_inv in E as (t & r & Ht & _ & Es & _).
  destruct (@occurrence_inside p2 v t r Hp2 Ht Es) as [u' ->].
  exfalso. apply (Hg p1). exists t, u'. split; [assumption|reflexivity].
Qed.

(** Conversely, a text in which no match starts holds no occurrence. *)
Lemma no_match_occ_free (g s : pystr) :
  no_match_in VERSION_PATTERN g s -> occ_free g.
Proof.
  intros H p (t & q & Ht & ->).
  assert (E : match_at VERSION_PATTERN ((prefix ++ t ++ q) ++ s) = None).
  { apply (H p); [reflexivity|]. rewrite prefix_eq. discriminate. }
  revert E. rewrite <- !app_assoc. now apply match_version_occ.
Qed.

(** ** A text cut at its occurrences *)

Lemma render_head (p : codepoint -> bool) (x : pystr) (segs : list segment)
      (tail : pystr) :
  starts_with p (render (set_tokens x segs) tail) =
  starts_with p (render segs tail).
Proof.
  destruct segs as [|[g t] segs]; simpl; [reflexivity|].
  destruct g; reflexivity.
Qed.

Lemma well_split_set_tokens (x : pystr) (segs : list segment) (tail : pystr) :
  is_token x -> well_split segs tail -> well_split (set_tokens x segs) tail.
Proof.
  intros Hx. induction segs as [|[g t] segs IH]; simpl; [trivial|].
  intros (Hg & Ht & Hr & Hw). rewrite render_head. auto.
Qed.

(** [search] finds the first segment ... *)
Lemma search_render (g t : pystr) (segs : list segment) (tail : pystr) :
  well_split ((g, t) :: segs) tail ->
  search VERSION_PATTERN (render ((g, t) :: segs) tail) =
  Some {| m_whole := prefix ++ t; m_group1 := Some t;
          m_rest := render segs tail |}.
Proof.
  simpl. intros (Hg & Ht & Hr & _).
  rewrite search_skip by now apply occ_free_no_match.
  apply search_here. now apply match_version_intro.
Qed.

(** ... or nothing when there is none ... *)
Lemma search_occ_free (tail : pystr) :
  occ_free tail -> search VERSION_PATTERN tail = None.
Proof.
  intros H. apply search_none_intro. intros p1 p2 ->.
  destruct (match_at VERSION_PATTERN p2) as [m|] eqn:E; [|reflexivity].
  apply match_version_inv in E as (t & r & Ht & _ & -> & _).
  exfalso. apply (H p1). exists t, r. auto.
Qed.

(** ... and [sub] with the literal replacement [antigravity/x] rewrites
    the token of every segment and copies the rest. *)
Lemma sub_render (x : pystr) (segs : list segment) (tail : pystr) :
  well_split segs tail ->
  sub_text VERSION_PATTERN (map TLit (prefix ++ x)) (render segs tail) =
  render (set_tokens x segs) tail.
Proof.
  set (T := map TLit (prefix ++ x)).
  assert (HT : forall m, expand T m = prefix ++ x)
    by (intros m; apply expand_plain).
  clearbody T.
  induction segs as [|[g t] segs IH]; simpl.
  - intros H. rewrite <- (app_nil_r tail) at 1.
    rewrite sub_text_skip by now apply occ_free_no_match_end.
    rewrite sub_text_nil. apply app_nil_r.
  - intros (Hg & Ht & Hr & Hw).
    rewrite sub_text_skip by now apply occ_free_no_match.
    rewrite (@sub_text_match VERSION_PATTERN _ _ _ (match_version_intro _ Ht Hr)).
    rewrite HT. simpl m_rest. rewrite (IH Hw).
    now rewrite <- app_assoc.
Qed.

(** Every text is cut that way. *)
Lemma split_exists (s : pystr) :
  exists segs tail, well_split segs tail /\ s = render segs tail.
Proof.
  remember (List.length s) as n eqn:Hn.
  assert (Hle : List.length s <= n) by lia. clear Hn.
  revert s Hle. induction n as [|n IH]; intros s Hle;
    destruct (search VERSION_PATTERN s) as [m|] eqn:E.
  - destruct s; [|simpl in Hle; lia]. cbn [search] in E.
    rewrite match_at_nil in E. discriminate.
  - exists [], s. split; [|reflexivity]. simpl.
    intros p (t & q & Ht & ->).
    apply (match_version_occ q Ht).
    eapply search_none_inv; [exact E|reflexivity].
  - apply search_some_inv in E as (pre & Es & Em & Hpre).
    pose proof (match_at_shorter _ _ Em) as Hlen.
    apply match_version_inv in Em as (t & r & Ht & Hr & Ew & ->).
    cbn [m_whole m_rest] in *. clear Ew.
    destruct (IH r) as (segs & tail & Hw & ->).
    { rewrite Es, !length_app in Hle. rewrite !length_app in Hlen. lia. }
    exists ((pre, t) :: segs), tail. split.
    + cbn [well_split]. repeat split; try assumption.
      eapply no_match_occ_free; eauto.
    + cbn [render]. now rewrite Es, <- app_assoc.
  - exists [], s. split; [|reflexivity]. simpl.
    intros p (t & q & Ht & ->).
    apply (match_version_occ q Ht).
    eapply search_none_inv; [exact E|reflexivity].
Qed.

Lemma split_has_occurrence (segs : list segment) (tail : pystr) :
  well_split segs tail -> has_occurrence (render segs tail) -> segs <> [].
Proof.
  destruct segs; [|discriminate]. simpl. intros H [p Hp]. now apply H in Hp.
Qed.

(** A complete token is determined by the text it starts. *)
Lemma token_unique (t1 t2 r1 r2 : pystr) :
  is_token t1 -> is_token t2 ->
  starts_with is_decimal r1 = false -> starts_with is_decimal r2 = false ->
  t1 ++ r1 = t2 ++ r2 -> t1 = t2 /\ r1 = r2.
Proof.
  intros H1 H2 Hr1 Hr2 E.
  pose proof (numbers_at_intro r1 H1 Hr1) as E1.
  pose proof (numbers_at_intro r2 H2 Hr2) as E2.
  rewrite E, E2 in E1. now inversion E1.
Qed.

End Occurrences.
Import Occurrences.

(** * Running the functions of the script *)

Module Runs.

Lemma get_current_version_run (st : state) :
  get_current_version st =
  match tracked (st_world st) with
  | Missing => (Ret None, logged [EErr ConstantsNotFound; EExists] st)
  | Unreadable => (Raise OSError, logged [ERead; EExists] st)
  | Undecodable => (Raise UnicodeDecodeError, logged [ERead; EExists] st)
  | Contents text =>
      match search VERSION_PATTERN text with
      | Some m => (Ret (m_group1 m), logged [ERead; EExists] st)
      | None =>
          (Ret None, logged [EErr NoUserAgentVersion; ERead; EExists] st)
      end
  end.
Proof.
  unfold get_current_version, path_exists, read_text, bind, emit, print_err,
    ret, logged.
  destruct st as [w t]. cbn.
  destruct (tracked w) as [| | |text] eqn:Ew; cbn; rewrite ?Ew;
    try reflexivity.
  destruct (search VERSION_PATTERN text); reflexivity.
Qed.

Lemma sub_result_sub (r : regex) (repl s : pystr) :
  sub_result r repl s =
  match sub r repl s with
  | Some new => inl new
  | None =>
      match parse_template (groups r) repl with
      | inr e => inr e
      | inl _ => inr BadTemplate
      end
  end.
Proof.
  unfold sub, sub_result. now destruct (parse_template (groups r) repl).
Qed.

Lemma update_version_run (v : pystr) (d : bool) (st : state) :
  update_version v d st =
  match tracked (st_world st) with
  | Missing => (Ret false, logged [EExists] st)
  | Unreadable => (Raise OSError, logged [ERead; EExists] st)
  | Undecodable => (Raise UnicodeDecodeError, logged [ERead; EExists] st)
  | Contents text =>
      match sub VERSION_PATTERN (prefix ++ v) text with
      | None => (Raise (rejected_as (prefix ++ v)), logged [ERead; EExists] st)
      | Some new =>
          if str_eqb text new then
            (Ret true, logged [EOut NoChangesNeeded; ERead; EExists] st)
          else if d then
            (Ret true, logged [EOut (WouldUpdate v); ERead; EExists] st)
          else if writable (st_world st) then
            (Ret true,
             {| st_world := set_file new (st_world st);
                st_trace := [EOut (Updated v); EWrite new; ERead; EExists]
                            ++ st_trace st |})
          else
            (Raise OSError,
             {| st_world := after_failed_write (st_world st);
                st_trace := [EWrite new; ERead; EExists] ++ st_trace st |})
      end
  end.
Proof.
  unfold update_version, path_exists, read_text, write_text, bind, emit,
    print, raise, ret, logged, after_failed_write.
  destruct st as [w t]. cbn -[sub sub_result codes prefix set_file groups].
  change (codes "antigravity/") with prefix.
  destruct (tracked w) as [| | |text] eqn:Ew;
    cbn -[sub sub_result codes prefix set_file groups];
    rewrite ?Ew; try reflexivity.
  rewrite sub_result_sub.
  destruct (sub VERSION_PATTERN (prefix ++ v) text) as [new|] eqn:Es;
    cbn -[sub sub_result codes prefix set_file groups].
  - destruct (str_eqb text new); [reflexivity|].
    destruct d; [reflexivity|].
    cbn -[sub sub_result codes prefix set_file groups].
    destruct (writable w); [reflexivity|].
    destruct (fault w); reflexivity.
  - unfold rejected_as. unfold sub, sub_result in Es.
    destruct (parse_template (groups VERSION_PATTERN) (prefix ++ v));
      [discriminate Es|reflexivity].
Qed.

(** Splits on every test the goal or a hypothesis still branches on. *)
Ltac step_script :=
  cbn -[sub search codes prefix str_eqb get_current_version update_version]
    in *;
  rewrite ?get_current_version_run, ?update_version_run in *;
  unfold logged, set_file, after_failed_write in *;
  cbn -[sub search codes prefix str_eqb get_current_version update_version]
    in *.

Ltac split_on x :=
  lazymatch x with
  | context [match _ with _ => _ end] => fail
  | _ => tryif is_var x then destruct x else destruct x eqn:?
  end.

Ltac split_cases :=
  repeat (step_script;
          try discriminate;
          match goal with
          | |- context [match ?x with _ => _ end] => split_on x
          | H : context [match ?x with _ => _ end] |- _ => split_on x
          end);
  step_script.

Ltac unfold_script :=
  unfold exit_code, final_file, trace_of, run, main, determine_latest,
    or_exit, extract_version_from_url, fetch_latest_version,
    print, print_err, emit, sys_exit, raise, ret, bind, truthy in *.

(** ** What the patterns capture *)

Lemma search_version_group (s : pystr) (m : rematch) :
  search VERSION_PATTERN s = Some m ->
  exists t, m_group1 m = Some t /\ is_token t.
Proof.
  intros H. apply search_some_inv in H as (pre & _ & Hm & _).
  apply match_version_inv in Hm as (t & r & Ht & _ & _ & ->).
  exists t. auto.
Qed.

Lemma search_tarball_group (s : pystr) (m : rematch) :
  search TARBALL_VERSION_PATTERN s = Some m ->
  exists t, m_group1 m = Some t /\ is_token t.
Proof.
  intros H. apply search_some_inv in H as (pre & _ & Hm & _).
  apply match_tarball_inv in Hm as (t & b & r & Ht & _ & _ & Hg & _).
  exists t. auto.
Qed.

(** A capture is never missing nor empty. *)
Lemma version_group_absurd (s : pystr) (m : rematch) :
  search VERSION_PATTERN s = Some m ->
  m_group1 m = None \/ m_group1 m = Some [] -> False.
Proof.
  intros H Hg. apply search_version_group in H as (t & E & Ht).
  apply token_nonempty in Ht. destruct Hg; congruence.
Qed.

Lemma tarball_group_absurd (s : pystr) (m : rematch) :
  search TARBALL_VERSION_PATTERN s = Some m ->
  m_group1 m = None \/ m_group1 m = Some [] -> False.
Proof.
  intros H Hg. apply search_tarball_group in H as (t & E & Ht).
  apply token_nonempty in Ht. destruct Hg; congruence.
Qed.

Ltac absurd_capture :=
  solve [ exfalso; eapply version_group_absurd; [eassumption|auto]
        | exfalso; eapply tarball_group_absurd; [eassumption|auto] ].

(** ** Literal replacement *)

Lemma token_literal (x : pystr) :
  is_token x -> no_backslash (prefix ++ x) = true.
Proof.
  intros Hx. unfold no_backslash. rewrite forallb_app.
  apply andb_true_iff. split; [reflexivity|].
  apply forallb_forall. intros c Hc.
  destruct (token_chars _ Hx Hc) as [H|H].
  - destruct (N.eqb c (chr "\")) eqn:E; [|reflexivity].
    apply N.eqb_eq in E. subst. discriminate.
  - subst. reflexivity.
Qed.

Lemma no_backslash_prefix (x : pystr) :
  no_backslash x = true -> no_backslash (prefix ++ x) = true.
Proof.
  intros H. unfold no_backslash in *. rewrite forallb_app.
  apply andb_true_iff. split; [reflexivity|assumption].
Qed.

Lemma sub_literal (x : pystr) (segs : list segment) (tail : pystr) :
  no_backslash (prefix ++ x) = true -> well_split segs tail ->
  sub VERSION_PATTERN (prefix ++ x) (render segs tail) =
  Some (render (set_tokens x segs) tail).
Proof.
  intros Hx Hw. rewrite sub_unfold.
  rewrite (parse_template_plain _ _ Hx).
  cbn [option_map]. now rewrite sub_render.
Qed.

(** ** Checking texts by running the scanner *)

Lemma occ_free_check (g : pystr) :
  search VERSION_PATTERN g = None -> occ_free g.
Proof.
  intros H. apply (@no_match_occ_free g []).
  intros p1 p2 -> _. rewrite app_nil_r.
  eapply search_none_inv; eauto.
Qed.

Lemma well_split_checked (segs : list segment) (tail : pystr) :
  well_split_check segs tail = true -> well_split segs tail.
Proof.
  induction segs as [|[g t] segs IH]; simpl.
  - destruct (search VERSION_PATTERN tail) eqn:E; [discriminate|].
    intros _. now apply occ_free_check.
  - intros H. repeat (apply andb_true_iff in H as [H ?]).
    destruct (search VERSION_PATTERN g) eqn:E; [discriminate|].
    repeat split.
    + now apply occ_free_check.
    + now apply version_token_iff.
    + now apply negb_true_iff.
    + now apply IH.
Qed.

End Runs.
Import Runs.

(* ================================================================== *)
(** * The properties of the specification *)
(* ================================================================== *)

(** ** What a run shows *)

Ltac unfold_spec :=
  unfold same_version, reaches_patch, current_of, latest_of,
    said_no_changes, reads, writes in *;
  unfold_script.

Ltac str_eqb_facts :=
  repeat match goal with
  | H : str_eqb _ _ = true |- _ => apply str_eqb_eq in H
  | H : str_eqb _ _ = false |- _ => apply str_eqb_neq in H
  end.

Ltac inject_all :=
  repeat match goal with
  | H : Some _ = Some _ |- _ => injection H as H; try subst
  | H : Ret _ = Ret _ |- _ => injection H as H; try subst
  | H : Some _ = None |- _ => discriminate H
  | H : None = Some _ |- _ => discriminate H
  end.

Ltac finish :=
  repeat (intros; split); intros; inject_all; str_eqb_facts;
  try absurd_capture;
  try reflexivity; try lia; try discriminate;
  try congruence; try (simpl; tauto); auto.

(** ** C9 *)

(** C9, as stated, fails: with the file at [1.15.7] and [--version 1.15.8]
    the run reads the tracked file twice - [get_current_version] reads it,
    and [update_version] reads it again before writing. *)
Lemma file_read_twice_counterexample :
  reads (trace_of set_version_args world_1_15_7) = 2 /\
  writes (trace_of set_version_args world_1_15_7) = 1 /\
  exit_code set_version_args world_1_15_7 = 0%Z.
Proof. repeat split; vm_compute; reflexivity. Qed.

(** C9, amended: per run the tracked file is read at most twice - once by
    [get_current_version] when the file exists, and once more by
    [update_version] exactly when the run reaches the patch step - and it
    is rewritten at most once. *)
Theorem file_read_at_most_twice (a : args) (w : world) :
  reads (trace_of a w) =
    (match tracked w with Missing => 0 | _ => 1 end)
    + (if reaches_patch a w then 1 else 0) /\
  reads (trace_of a w) <= 2 /\
  writes (trace_of a w) <= 1.
Proof.
  unfold_spec. destruct a as [chk dry ver u], w as [f wr ft pg].
  split_cases; finish.
Qed.

(** ** C7 *)

(** C7: in [--check] mode no run writes the tracked file, whatever the
    outcome; when the current version differs from the latest, the run
    prints the discrepancy and exits with status 1, the file untouched. *)
Theorem check_mode_never_writes (a : args) (w : world) :
  check a = true ->
  writes (trace_of a w) = 0 /\
  final_file a w = tracked w /\
  (forall c l,
      current_of w = Some c -> latest_of a w = Some l -> c <> l ->
      exit_code a w = 1%Z /\
      In (EOut (UpdateAvailable c l)) (trace_of a w)).
Proof.
  unfold_spec. destruct a as [chk dry ver u], w as [f wr ft pg].
  cbn [check]. intros ->.
  split_cases; finish.
Qed.

Lemma check_mode_never_writes_witness :
  writes (trace_of check_args world_1_15_8) = 0 /\
  final_file check_args world_1_15_8 = tracked world_1_15_8 /\
  exit_code check_args world_1_15_8 = 1%Z /\
  In (EOut (UpdateAvailable (codes "1.15.8") (codes "1.16.0")))
     (trace_of check_args world_1_15_8).
Proof.
  destruct (check_mode_never_writes check_args world_1_15_8 eq_refl)
    as (Hw & Hf & Hd).
  destruct (Hd (codes "1.15.8") (codes "1.16.0") eq_refl eq_refl)
    as [He Hp]; [discriminate|].
  repeat split; assumption.
Defined.

(** ** C6 *)



(** ** C1 *)

(** C1: at this input the code breaks the claim.  With
    [--dry-run --version '\1'] the latest version [\1] differs from the
    current [1.15.8]; [update_version] hands [antigravity/\1] to [sub]
    unescaped, [sub] reads [\1] as a reference to the group it matched and
    puts the old token back, so the patched text equals the file's:
    the run prints "No changes needed" and exits with status 0, although
    the versions differ, nothing was applied and no would-be change was
    reported. *)
Lemma exit_zero_without_change :
  exit_code backref_args world_1_15_8 = 0%Z /\
  same_version backref_args world_1_15_8 = false /\
  current_of world_1_15_8 = Some (codes "1.15.8") /\
  latest_of backref_args world_1_15_8 = Some (codes "\1") /\
  patched backref_args world_1_15_8
  = Some (codes "UA = antigravity/1.15.8 linux") /\
  rev (trace_of backref_args world_1_15_8) =
    [EExists; ERead; EOut (CurrentVersion (codes "1.15.8"));
     EOut (LatestVersion (codes "\1")); EExists; ERead; EOut NoChangesNeeded].
Proof. repeat split; vm_compute; reflexivity. Qed.

(** ** C8 *)

(** C8, as stated, fails: with [--version '' --url URL] the flag
    [--version] is given, so the priority of the specification selects the
    explicit value, the empty string; [main] tests the value, not the
    presence of the flag, finds it empty, and takes the version from the
    URL instead. *)
Lemma empty_version_counterexample :
  select_source empty_version_args = ExplicitValue [] /\
  run (resolve_latest (select_source empty_version_args)) world_1_15_7
  = (Ret [], {| st_world := world_1_15_7; st_trace := [] |}) /\
  run (determine_latest empty_version_args) world_1_15_7
  = (Ret (codes "1.16.2"), {| st_world := world_1_15_7; st_trace := [] |}).
Proof. repeat split; vm_compute; reflexivity. Qed.

(** C8, amended: a flag counts as present only with a non-empty value.
    Lines 147-157 of [main] resolve exactly the source the static priority
    selects once the flags given with an empty value are left out, and so
    the source it selects outright whenever no flag is given with an empty
    value.  A [--version] with a value wins whatever [--url] holds: its
    value is the latest version, nothing is parsed, fetched or reported,
    and the step cannot fail.  Without it a [--url] with a value is parsed
    and the page is not consulted, even when the URL does not parse; with
    neither, the live page is consulted. *)
Theorem source_priority (a : args) (w : world) :
  determine_latest a = resolve_latest (select_source (drop_empty a)) /\
  (version a <> Some [] -> url a <> Some [] ->
   determine_latest a = resolve_latest (select_source a)) /\
  (forall v, version a = Some v -> v <> [] ->
     select_source a = ExplicitValue v /\
     run (determine_latest a) w
     = (Ret v, {| st_world := w; st_trace := [] |})) /\
  (forall u, truthy (version a) = None -> url a = Some u -> u <> [] ->
     select_source (drop_empty a) = DownloadURL u /\
     ~ In EImport (st_trace (snd (run (determine_latest a) w)))) /\
  (truthy (version a) = None -> truthy (url a) = None ->
     select_source (drop_empty a) = LivePage /\
     In EImport (st_trace (snd (run (determine_latest a) w)))).
Proof.
  split; [|split; [|split; [|split]]].
  - unfold determine_latest, select_source, drop_empty, resolve_latest.
    cbn [version url].
    destruct (truthy (version a)); [reflexivity|].
    destruct (truthy (url a)); reflexivity.
  - intros Hv Hu. unfold determine_latest, select_source, resolve_latest.
    destruct (version a) as [[|c v]|]; [now elim Hv|reflexivity|].
    destruct (url a) as [[|c u]|]; [now elim Hu|reflexivity|reflexivity].
  - intros v Hv Hne. unfold select_source, determine_latest, run.
    rewrite Hv. destruct v as [|c v]; [contradiction|]. split; reflexivity.
  - intros u Hv Hu Hne. unfold select_source, drop_empty, determine_latest, run.
    cbn [version url].
    rewrite Hv, Hu. destruct u as [|c u]; [contradiction|].
    split; [reflexivity|]. unfold_script.
    split_cases; intros H; simpl in H; intuition discriminate.
  - intros Hv Hu. unfold select_source, drop_empty, determine_latest, run.
    cbn [version url].
    rewrite Hv, Hu. split; [reflexivity|]. unfold_script.
    destruct w as [f wr ft pg]. split_cases; simpl; tauto.
Qed.

Lemma source_priority_witness :
  select_source both_flags_args = ExplicitValue (codes "1.15.8") /\
  determine_latest both_flags_args
  = resolve_latest (select_source both_flags_args) /\
  run (determine_latest both_flags_args) world_1_15_7
  = (Ret (codes "1.15.8"), {| st_world := world_1_15_7; st_trace := [] |}).
Proof.
  destruct (source_priority both_flags_args world_1_15_7)
    as (_ & H2 & H3 & _).
  destruct (H3 (codes "1.15.8") eq_refl) as [E1 E2]; [discriminate|].
  split; [exact E1|split; [|exact E2]].
  apply H2; discriminate.
Defined.

(** ** C2 *)

Lemma search_first_token (s pre x post : pystr) :
  first_token s pre x post ->
  search VERSION_PATTERN s =
  Some {| m_whole := prefix ++ x; m_group1 := Some x; m_rest := post |}.
Proof.
  intros (-> & Hx & Hpre & Hpost). apply version_token_iff in Hx.
  change (codes "antigravity/") with prefix.
  rewrite search_skip by now apply occ_free_no_match.
  apply search_here. now apply match_version_intro.
Qed.

Lemma first_token_exists (s : pystr) :
  has_occurrence s -> exists pre x post, first_token s pre x post.
Proof.
  intros Ho. destruct (split_exists s) as (segs & tail & Hw & ->).
  pose proof (@split_has_occurrence segs tail Hw Ho) as Hne.
  destruct segs as [|[g t] segs]; [contradiction|].
  destruct Hw as (Hg & Ht & Hr & _).
  exists g, t, (render segs tail). repeat split; try assumption.
  now apply version_token_iff.
Qed.

(** C2: when the tracked file holds an occurrence of [antigravity/X],
    [get_current_version] returns the token [X] of the first occurrence,
    as the pattern captures it: that first token exists, and whatever
    token is first is the one returned. *)
Theorem get_current_version_first_token (w : world) (s : pystr) :
  tracked w = Contents s -> has_occurrence s ->
  (exists pre x post, first_token s pre x post) /\
  (forall pre x post,
      first_token s pre x post ->
      run get_current_version w
      = (Ret (Some x), {| st_world := w; st_trace := [ERead; EExists] |})).
Proof.
  intros Hf Ho. split; [now apply first_token_exists|].
  intros pre x post Hx. unfold run. rewrite get_current_version_run.
  cbn [st_world]. rewrite Hf, (search_first_token Hx). reflexivity.
Qed.

Lemma rust_const_first_token :
  first_token (codes "pub const UA: &str = 'antigravity/1.15.8 linux';")
              (codes "pub const UA: &str = '") (codes "1.15.8")
              (codes " linux';").
Proof.
  repeat split. apply occ_free_check. reflexivity.
Qed.

Lemma get_current_version_first_token_witness :
  fst (run get_current_version world_rust_const) = Ret (Some (codes "1.15.8")).
Proof.
  assert (Ho : has_occurrence
                 (codes "pub const UA: &str = 'antigravity/1.15.8 linux';")).
  { exists (codes "pub const UA: &str = '"), (codes "1.15.8"),
      (codes " linux';").
    split; [apply version_token_iff|]; reflexivity. }
  destruct (get_current_version_first_token world_rust_const eq_refl Ho) as [_ H].
  rewrite (H _ _ _ rust_const_first_token). reflexivity.
Defined.

(** ** What [update_version] leaves in the file *)

(** With a replacement free of backslashes, on a writable file:
    [update_version] succeeds and the file then holds the text with every
    token rewritten, whether or not a write was needed. *)
Lemma update_version_literal (w : world) (x : pystr)
      (segs : list segment) (tail : pystr) :
  tracked w = Contents (render segs tail) -> writable w = true ->
  well_split segs tail -> no_backslash (prefix ++ x) = true ->
  fst (run (update_version x false) w) = Ret true /\
  tracked (st_world (snd (run (update_version x false) w)))
  = Contents (render (set_tokens x segs) tail).
Proof.
  intros Hf Hwr Hw Hx. unfold run. rewrite update_version_run.
  cbn [st_world st_trace]. rewrite Hf, (@sub_literal x segs tail Hx Hw), Hwr.
  destruct (str_eqb (render segs tail) (render (set_tokens x segs) tail))
    eqn:E.
  - apply str_eqb_eq in E. cbn. rewrite Hf, E. auto.
  - cbn. auto.
Qed.

(** ** C4 *)

(** C4 (round trip): when the tracked file holds an occurrence and [x] is
    a version token, [update_version x] succeeds, and reading the current
    version from the file it leaves yields [x]. *)
Theorem update_then_read_back (w : world) (s x : pystr) :
  tracked w = Contents s -> writable w = true ->
  has_occurrence s -> version_token x = true ->
  fst (run (update_version x false) w) = Ret true /\
  fst (run get_current_version
           (st_world (snd (run (update_version x false) w))))
  = Ret (Some x).
Proof.
  intros Hf Hwr Ho Hx. apply version_token_iff in Hx.
  destruct (split_exists s) as (segs & tail & Hw & ->).
  pose proof (@split_has_occurrence segs tail Hw Ho) as Hne.
  destruct (@update_version_literal w x segs tail Hf Hwr Hw
              (token_literal Hx)) as [Hr Hn].
  split; [assumption|].
  unfold run at 1. rewrite get_current_version_run. cbn [st_world].
  rewrite Hn. destruct segs as [|[g t] segs]; [contradiction|].
  pose proof (@well_split_set_tokens x ((g, t) :: segs) tail Hx Hw) as Hw'.
  cbn [set_tokens map fst] in Hw' |- *.
  rewrite (@search_render g x _ tail Hw'). reflexivity.
Qed.

Lemma update_then_read_back_witness :
  fst (run get_current_version
           (st_world (snd (run (update_version (codes "1.15.8") false)
                               world_1_15_7))))
  = Ret (Some (codes "1.15.8")).
Proof.
  refine (proj2 (@update_then_read_back world_1_15_7 _ (codes "1.15.8")
                   eq_refl eq_refl _ eq_refl)).
  exists (codes "UA = "), (codes "1.15.7"), (codes " linux").
  split; [apply version_token_iff|]; reflexivity.
Defined.

(** ** C5 *)

(** C5, as stated, fails: in a file with the occurrences
    [antigravity/1.2.3] and [antigravity/4.5.6] the current version is
    [1.2.3], and [update_version] with that same version changes the
    second occurrence, so the text differs and the file is written. *)
Lemma same_version_rewrites_counterexample :
  fst (run get_current_version world_two_tokens) = Ret (Some (codes "1.2.3")) /\
  sub VERSION_PATTERN (codes "antigravity/" ++ codes "1.2.3")
      (codes "antigravity/1.2.3 antigravity/4.5.6")
  = Some (codes "antigravity/1.2.3 antigravity/1.2.3") /\
  filter is_write
    (st_trace (snd (run (update_version (codes "1.2.3") false) world_two_tokens)))
  = [EWrite (codes "antigravity/1.2.3 antigravity/1.2.3")].
Proof. repeat split; vm_compute; reflexivity. Qed.

Lemma set_tokens_same (c : pystr) (segs : list segment) :
  (forall t, In t (tokens segs) -> t = c) -> set_tokens c segs = segs.
Proof.
  induction segs as [|[g t] segs IH]; simpl; intros H; [reflexivity|].
  rewrite IH by auto. now rewrite (H t) by auto.
Qed.

(** C5, amended (idempotence): when every occurrence in the tracked file
    carries the same token [c] - in particular when the file holds exactly
    one occurrence - [c] is the current version, and [update_version c],
    dry run or not, finds the patched text equal to the text it read: it
    reports that nothing changes, writes nothing and leaves the world as
    it was. *)
Theorem update_to_current_is_noop (w : world) (segs : list segment)
        (tail c : pystr) (d : bool) :
  tracked w = Contents (render segs tail) ->
  well_split segs tail -> segs <> [] ->
  (forall t, In t (tokens segs) -> t = c) ->
  fst (run get_current_version w) = Ret (Some c) /\
  sub VERSION_PATTERN (codes "antigravity/" ++ c) (render segs tail)
  = Some (render segs tail) /\
  run (update_version c d) w
  = (Ret true,
     {| st_world := w; st_trace := [EOut NoChangesNeeded; ERead; EExists] |}).
Proof.
  intros Hf Hw Hne Hall. destruct segs as [|[g t] segs]; [contradiction|].
  assert (Ht : t = c) by (apply Hall; simpl; auto). subst t.
  assert (Hc : is_token c) by apply Hw.
  assert (Hsub : sub VERSION_PATTERN (prefix ++ c)
                     (render ((g, c) :: segs) tail)
                 = Some (render ((g, c) :: segs) tail)).
  { rewrite (@sub_literal c _ tail (token_literal Hc) Hw).
    now rewrite set_tokens_same. }
  split; [|split; [exact Hsub|]].
  - unfold run. rewrite get_current_version_run. cbn [st_world].
    rewrite Hf, (@search_render g c segs tail Hw). reflexivity.
  - unfold run. rewrite update_version_run. cbn [st_world].
    rewrite Hf, Hsub, str_eqb_refl. reflexivity.
Qed.

Lemma update_to_current_is_noop_witness :
  run (update_version (codes "1.15.8") false) world_one_token
  = (Ret true,
     {| st_world := world_one_token;
        st_trace := [EOut NoChangesNeeded; ERead; EExists] |}).
Proof.
  refine (proj2 (proj2 (@update_to_current_is_noop world_one_token
                          [(codes "UA = ", codes "1.15.8")]
                          (codes " linux") (codes "1.15.8") false
                          eq_refl _ _ _))).
  - apply well_split_checked. reflexivity.
  - discriminate.
  - intros t [<-|[]]. reflexivity.
Defined.

(** ** C10 *)

(** C10: in a file with several occurrences, cut at them,
    [get_current_version] returns the token of the earliest one, and
    [update_version] with a version token [x] succeeds and leaves the
    file with every occurrence carrying [x], the text between the
    occurrences unchanged. *)
Theorem several_occurrences (w : world) (g t x : pystr)
        (segs : list segment) (tail : pystr) :
  tracked w = Contents (render ((g, t) :: segs) tail) ->
  well_split ((g, t) :: segs) tail ->
  writable w = true -> version_token x = true ->
  fst (run get_current_version w) = Ret (Some t) /\
  fst (run (update_version x false) w) = Ret true /\
  tracked (st_world (snd (run (update_version x false) w)))
  = Contents (render (set_tokens x ((g, t) :: segs)) tail) /\
  well_split (set_tokens x ((g, t) :: segs)) tail /\
  (forall t', In t' (tokens (set_tokens x ((g, t) :: segs))) -> t' = x).
Proof.
  intros Hf Hw Hwr Hx. apply version_token_iff in Hx.
  destruct (@update_version_literal w x _ tail Hf Hwr Hw
              (token_literal Hx)) as [Hr Hn].
  split; [|split; [exact Hr|split; [exact Hn|split]]].
  - unfold run. rewrite get_current_version_run. cbn [st_world].
    rewrite Hf, (@search_render g t segs tail Hw). reflexivity.
  - now apply well_split_set_tokens.
  - unfold tokens, set_tokens. rewrite map_map. cbn [snd].
    intros t' Hin. apply in_map_iff in Hin as (seg & <- & _). reflexivity.
Qed.

Lemma several_occurrences_witness :
  fst (run get_current_version world_two_segments) = Ret (Some (codes "1.14.0")) /\
  tracked (st_world (snd (run (update_version (codes "1.15.8") false)
                              world_two_segments)))
  = Contents (codes "// was antigravity/1.15.8 UA = antigravity/1.15.8 linux").
Proof.
  destruct (@several_occurrences world_two_segments
              (codes "// was ") (codes "1.14.0") (codes "1.15.8")
              [(codes " UA = ", codes "1.15.7")] (codes " linux")
              eq_refl
              (@well_split_checked two_segments (codes " linux") eq_refl)
              eq_refl eq_refl)
    as (H1 & _ & H3 & _).
  split; [exact H1|exact H3].
Defined.

(** ** C3 *)

Lemma segment_at_match (p s : pystr) :
  segment_at (p ++ s) p <-> match_at TARBALL_VERSION_PATTERN s <> None.
Proof.
  split.
  - intros (t & b & q & Ht & Hb & E). apply app_inv_head in E. subst s.
    apply version_token_iff in Ht.
    destruct (match_tarball_intro q Ht Hb) as (m & Hm & _).
    change ([chr "/"] ++ t ++ [chr "-"] ++ b ++ [chr "/"] ++ q)
      with (slash :: t ++ hyphen :: b ++ slash :: q).
    congruence.
  - intros H.
    destruct (match_at TARBALL_VERSION_PATTERN s) as [m|] eqn:E;
      [|contradiction].
    apply match_tarball_inv in E as (t & b & r & Ht & Hb & -> & _).
    exists t, b, r. repeat split; try apply Hb.
    now apply version_token_iff.
Qed.

Lemma search_tarball_first (u pre t b post : pystr) :
  u = pre ++ [chr "/"] ++ t ++ [chr "-"] ++ b ++ [chr "/"] ++ post ->
  version_token t = true -> digits1 b ->
  (forall p, segment_at u p -> List.length pre <= List.length p) ->
  exists m,
    search TARBALL_VERSION_PATTERN u = Some m /\ m_group1 m = Some t.
Proof.
  intros -> Ht Hb Hfirst. apply version_token_iff in Ht.
  destruct (match_tarball_intro post Ht Hb) as (m & Hm & Hg).
  exists m. split; [|assumption].
  change ([chr "/"] ++ t ++ [chr "-"] ++ b ++ [chr "/"] ++ post)
    with (slash :: t ++ hyphen :: b ++ slash :: post) in *.
  rewrite search_skip; [now apply search_here|].
  intros p1 p2 -> Hp2.
  destruct (match_at TARBALL_VERSION_PATTERN
              (p2 ++ slash :: t ++ hyphen :: b ++ slash :: post)) eqn:E;
    [|reflexivity].
  exfalso.
  assert (Hs : segment_at
                 ((p1 ++ p2) ++ slash :: t ++ hyphen :: b ++ slash :: post)
                 p1).
  { rewrite <- app_assoc. apply segment_at_match. congruence. }
  apply Hfirst in Hs. rewrite length_app in Hs.
  destruct p2; [contradiction|simpl in Hs; lia].
Qed.

Lemma search_tarball_none (u : pystr) :
  (forall p, ~ segment_at u p) -> search TARBALL_VERSION_PATTERN u = None.
Proof.
  intros H. apply search_none_intro. intros p1 p2 ->.
  destruct (match_at TARBALL_VERSION_PATTERN p2) eqn:E; [|reflexivity].
  exfalso. apply (H p1). apply segment_at_match. congruence.
Qed.

(** C3, as stated, fails: the URL below has the stated form with
    [A.B.C = 2.0.0], the segment [/2.0.0-2/] standing before
    [linux-x64/...Antigravity.tar.gz], yet [extract_version_from_url]
    returns [1.0.0], the version of the earlier segment [/1.0.0-1/]. *)
Lemma url_with_two_segments_counterexample :
  url_two_segments = codes "https://x/1.0.0-1" ++ [chr "/"] ++ codes "2.0.0"
           ++ [chr "-"] ++ codes "2" ++ [chr "/"]
           ++ codes "linux-x64/" ++ codes "Antigravity.tar.gz" /\
  version_token (codes "2.0.0") = true /\
  fst (run (extract_version_from_url url_two_segments) world_rust_const)
  = Ret (Some (codes "1.0.0")).
Proof. repeat split; vm_compute; reflexivity. Qed.

(** C3, amended: for a URL that holds a segment [/<A.B.C>-<digits>/],
    [extract_version_from_url] returns the [A.B.C] of the first such
    segment, the build number dropped, and prints nothing; for a URL with
    no such segment it reports that the URL cannot be parsed and returns
    nothing. *)
Theorem extract_version_first_segment (w : world) (u : pystr) :
  (forall pre t b post,
      u = pre ++ [chr "/"] ++ t ++ [chr "-"] ++ b ++ [chr "/"] ++ post ->
      version_token t = true -> digits1 b ->
      (forall p, segment_at u p -> List.length pre <= List.length p) ->
      run (extract_version_from_url u) w
      = (Ret (Some t), {| st_world := w; st_trace := [] |})) /\
  ((forall p, ~ segment_at u p) ->
   run (extract_version_from_url u) w
   = (Ret None, {| st_world := w; st_trace := [EErr (CannotParseURL u)] |})).
Proof.
  split.
  - intros pre t b post Hu Ht Hb Hfirst.
    destruct (@search_tarball_first u pre t b post Hu Ht Hb Hfirst)
      as (m & Hs & Hg).
    unfold extract_version_from_url, run. rewrite Hs, Hg. reflexivity.
  - intros Hnone. unfold extract_version_from_url, run.
    rewrite (@search_tarball_none u Hnone). reflexivity.
Qed.

Lemma no_segment_before_checked (u : pystr) (n : nat) :
  no_segment_before u n = true ->
  forall p, segment_at u p -> n <= List.length p.
Proof.
  intros H p Hp. destruct (Nat.le_gt_cases n (List.length p)) as [|Hlt];
    [assumption|exfalso].
  unfold no_segment_before in H. rewrite forallb_forall in H.
  specialize (H (List.length p)).
  assert (Hin : In (List.length p) (seq 0 n)) by (apply in_seq; lia).
  apply H in Hin.
  destruct Hp as (t & b & q & Ht & Hb & ->).
  rewrite skipn_app, skipn_all, Nat.sub_diag in Hin.
  set (s := [chr "/"] ++ t ++ [chr "-"] ++ b ++ [chr "/"] ++ q) in *.
  change ([] ++ skipn 0 s) with s in Hin.
  assert (Hs : segment_at (p ++ s) p) by (exists t, b, q; auto).
  apply segment_at_match in Hs.
  destruct (match_at TARBALL_VERSION_PATTERN s);
    [discriminate Hin|contradiction].
Qed.

Lemma extract_version_first_segment_witness :
  run (extract_version_from_url url_stable) world_rust_const
  = (Ret (Some (codes "1.16.2")),
     {| st_world := world_rust_const; st_trace := [] |}).
Proof.
  refine (proj1 (extract_version_first_segment world_rust_const url_stable)
                (codes "https://x/stable") (codes "1.16.2")
                (codes "99887766") (codes "linux-x64/Antigravity.tar.gz")
                eq_refl eq_refl _ _).
  - split; [discriminate|reflexivity].
  - apply no_segment_before_checked. reflexivity.
Defined.

(* ================================================================== *)
(** * Further properties of the code *)
(* ================================================================== *)

(** ** What the searches return *)

Lemma tarball_found (u : pystr) (m : rematch) :
  search TARBALL_VERSION_PATTERN u = Some m ->
  exists t, m_group1 m = Some t /\ version_token t = true /\ t <> [].
Proof.
  intros H. destruct (search_tarball_group _ H) as (t & Hg & Ht).
  exists t. repeat split; [assumption|now apply version_token_iff|].
  now apply token_nonempty.
Qed.

Lemma version_found (s : pystr) (m : rematch) :
  search VERSION_PATTERN s = Some m ->
  exists t, m_group1 m = Some t /\ version_token t = true /\ t <> [] /\
            has_occurrence s.
Proof.
  intros H. apply search_some_inv in H as (pre & Es & Hm & _).
  apply match_version_inv in Hm as (t & r & Ht & _ & Ew & ->).
  cbn [m_whole m_rest m_group1] in *.
  exists t. repeat split; try (now apply version_token_iff).
  - now apply token_nonempty.
  - exists pre, t, r. split; [assumption|]. rewrite Es.
    now rewrite <- app_assoc.
Qed.

Ltac token_of_search :=
  match goal with
  | Hs : search TARBALL_VERSION_PATTERN _ = Some ?m,
    Hg : m_group1 ?m = Some ?t |- _ =>
      let t' := fresh in let E := fresh in let Ht := fresh in
      let Hn := fresh in
      destruct (tarball_found _ Hs) as (t' & E & Ht & Hn);
      rewrite Hg in E; injection E as <-; clear Hs
  end.

(** ** [fetch_latest_version] *)

(** X1. [fetch_latest_version] never raises and never exits, leaves the world
    as it was and never touches the tracked file; it returns either a
    version token, silently, or nothing together with one diagnostic on
    the error stream and no other output. *)
Theorem fetch_latest_version_safe (w : world) :
  exists o t,
    run fetch_latest_version w = (Ret o, {| st_world := w; st_trace := t |})
    /\ file_events t = []
    /\ match o with
       | Some v => version_token v = true /\ t = [EImport]
       | None => exists m, t = [EErr m; EImport]
       end.
Proof.
  unfold_script. destruct w as [f wr ft pg].
  split_cases; do 2 eexists; (split; [reflexivity|]); (split; [reflexivity|]);
    try (eexists; reflexivity).
  match goal with
  | Hs : search TARBALL_VERSION_PATTERN _ = Some ?m |- _ =>
      destruct (tarball_found _ Hs) as (t & E & Ht & _); rewrite E; auto
  end.
Qed.

(** X2. When the page renders a link whose URL holds a segment
    [/<A.B.C>-<digits>/], [fetch_latest_version] returns the [A.B.C] of
    the first such segment, as [extract_version_from_url] does for a URL
    given on the command line; when the link holds no such segment it
    returns nothing and reports the link it could not parse. *)
Theorem fetch_reads_first_segment (w : world) (href : pystr) :
  page w = Rendered (Some href) -> href <> [] ->
  fst (run fetch_latest_version w)
  = fst (run (extract_version_from_url href) w) /\
  (forall pre t b post,
      href = pre ++ [chr "/"] ++ t ++ [chr "-"] ++ b ++ [chr "/"] ++ post ->
      version_token t = true -> digits1 b ->
      (forall p, segment_at href p -> List.length pre <= List.length p) ->
      fst (run fetch_latest_version w) = Ret (Some t)) /\
  ((forall p, ~ segment_at href p) ->
   run fetch_latest_version w
   = (Ret None,
      {| st_world := w;
         st_trace := [EErr (CannotParseHref href); EImport] |})).
Proof.
  intros Hp Hne. destruct href as [|c h]; [contradiction|].
  assert (Hrun : run fetch_latest_version w
                 = match search TARBALL_VERSION_PATTERN (c :: h) with
                   | Some m => (Ret (m_group1 m),
                                {| st_world := w; st_trace := [EImport] |})
                   | None => (Ret None,
                              {| st_world := w;
                                 st_trace := [EErr (CannotParseHref (c :: h));
                                              EImport] |})
                   end).
  { unfold_script. cbn [st_world st_trace]. rewrite Hp. cbn [truthy].
    destruct (search TARBALL_VERSION_PATTERN (c :: h)); reflexivity. }
  split; [|split].
  - rewrite Hrun. unfold_script.
    destruct (search TARBALL_VERSION_PATTERN (c :: h)); reflexivity.
  - intros pre t b post Hu Ht Hb Hfirst.
    destruct (@search_tarball_first (c :: h) pre t b post Hu Ht Hb Hfirst)
      as (m & Hs & Hg).
    rewrite Hrun, Hs, Hg. reflexivity.
  - intros Hnone. rewrite Hrun, (@search_tarball_none (c :: h) Hnone).
    reflexivity.
Qed.

Lemma fetch_reads_first_segment_witness :
  fst (run fetch_latest_version (world_with_page url_stable))
  = Ret (Some (codes "1.16.2")).
Proof.
  refine (proj1 (proj2 (@fetch_reads_first_segment
                          (world_with_page url_stable) url_stable
                          eq_refl _))
                (codes "https://x/stable") (codes "1.16.2")
                (codes "99887766") (codes "linux-x64/Antigravity.tar.gz")
                eq_refl eq_refl _ _).
  - discriminate.
  - split; [discriminate|reflexivity].
  - apply no_segment_before_checked. reflexivity.
Defined.

(** ** [get_current_version] *)

Lemma version_found_first (s : pystr) (m : rematch) :
  search VERSION_PATTERN s = Some m ->
  exists pre x post, first_token s pre x post /\ m_group1 m = Some x.
Proof.
  intros H. destruct (version_found _ H) as (t & _ & _ & _ & Ho).
  destruct (first_token_exists Ho) as (pre & x & post & Hf).
  exists pre, x, post. split; [assumption|].
  rewrite (search_first_token Hf) in H. injection H as <-. reflexivity.
Qed.

(** X3. [get_current_version] leaves the world as it was, never writes and
    reads the file at most once.  What it returns is the version token of
    the first occurrence [antigravity/<token>] in the file; it returns
    nothing exactly when the file is missing or holds no occurrence, and
    it raises only when the file exists and cannot be read ([OSError]) or
    decoded ([UnicodeDecodeError]). *)
Theorem get_current_version_result (w : world) :
  st_world (snd (run get_current_version w)) = w /\
  writes (st_trace (snd (run get_current_version w))) = 0 /\
  reads (st_trace (snd (run get_current_version w))) <= 1 /\
  (forall v, fst (run get_current_version w) = Ret (Some v) ->
             version_token v = true /\ v <> [] /\
             exists s, tracked w = Contents s /\ has_occurrence s /\
                       exists pre post, first_token s pre v post) /\
  (fst (run get_current_version w) = Ret None <->
   tracked w = Missing \/
   exists s, tracked w = Contents s /\ occ_free s) /\
  (forall e, fst (run get_current_version w) = Raise e ->
             (e = OSError /\ tracked w = Unreadable) \/
             (e = UnicodeDecodeError /\ tracked w = Undecodable)).
Proof.
  unfold run. rewrite get_current_version_run. cbn [st_world st_trace].
  destruct (tracked w) as [| | |s] eqn:Hf;
    cbn [fst snd logged st_world st_trace].
  - repeat split; auto; try discriminate;
      try (intros [H|(s & H & _)]; discriminate).
  - repeat split; auto; try discriminate;
      try (intros [H|(s & H & _)]; discriminate).
    intros e H. injection H as <-. left. split; reflexivity.
  - repeat split; auto; try discriminate;
      try (intros [H|(s & H & _)]; discriminate).
    intros e H. injection H as <-. right. split; reflexivity.
  - destruct (search VERSION_PATTERN s) as [m|] eqn:Hs;
      cbn [fst snd logged st_world st_trace].
    + destruct (version_found _ Hs) as (t & Hg & Ht & Hn & Ho).
      destruct (version_found_first _ Hs) as (pre & x & post & Hx & Hgx).
      rewrite Hg in Hgx. injection Hgx as <-.
      rewrite Hg.
      split; [reflexivity|split; [reflexivity|split; [auto|]]].
      split; [|split; [split|]]; try discriminate.
      * intros v H. injection H as <-.
        split; [assumption|split; [assumption|]].
        exists s. split; [reflexivity|split; [assumption|]].
        exists pre, post. assumption.
      * intros [H|(s' & H & Hfree)]; [discriminate|].
        injection H as <-. destruct Ho as [p Hp]. now apply Hfree in Hp.
    + split; [reflexivity|split; [reflexivity|split; [auto|]]].
      split; [|split; [split|]]; try discriminate; try reflexivity.
      intros _. right. exists s. split; [reflexivity|].
      now apply occ_free_check.
Qed.

(** ** [main]: the steps before the comparison *)

(** X4. When [get_current_version] yields no version - the file is missing,
    unreadable or holds no occurrence - [main] ends with status 1 right
    there: whatever the flags and the page, it resolves no latest version,
    prints nothing more, and leaves the world as it was. *)
Theorem main_stops_without_current (a : args) (w : world) :
  current_of w = None ->
  exit_code a w = 1%Z /\
  final_world a w = w /\
  trace_of a w = st_trace (snd (run get_current_version w)) /\
  writes (trace_of a w) = 0.
Proof.
  unfold final_world. unfold_spec.
  destruct a as [chk dry ver u], w as [f wr ft pg].
  split_cases; finish.
Qed.

Lemma main_stops_without_current_witness :
  exit_code set_version_args world_missing = 1%Z /\
  trace_of set_version_args world_missing = [EErr ConstantsNotFound; EExists].
Proof.
  destruct (@main_stops_without_current set_version_args world_missing
              eq_refl) as (H1 & _ & H3 & _).
  split; [exact H1|exact H3].
Defined.

(** X5. Resolving the latest version (lines 147-157) never touches the
    tracked file and leaves the world as it was; it ends with a non-empty
    version or with exit status 1, never with an exception; and a version
    that does not come from [--version] is always a version token. *)
Theorem determine_latest_read_only (a : args) (w : world) :
  st_world (snd (run (determine_latest a) w)) = w /\
  file_events (st_trace (snd (run (determine_latest a) w))) = [] /\
  match fst (run (determine_latest a) w) with
  | Ret l =>
      l <> [] /\
      (version a = Some l \/
       (truthy (version a) = None /\ version_token l = true))
  | Exit c => c = 1%Z
  | Raise _ => False
  end.
Proof.
  unfold file_events. unfold_script.
  destruct a as [chk dry ver u], w as [f wr ft pg].
  split_cases; repeat split; try reflexivity; try discriminate; auto;
    try (token_of_search; auto).
Qed.

(** X6. When the current version is known but no latest version can be
    resolved - the URL holds no version segment, or the page gives none -
    [main] ends with status 1 right after the resolution: the world is as
    before, nothing is written, and the output is that of the two steps. *)
Theorem main_stops_without_latest (a : args) (w : world) (c : pystr) :
  current_of w = Some c -> latest_of a w = None ->
  exit_code a w = 1%Z /\
  final_world a w = w /\
  trace_of a w
  = st_trace (snd (run (determine_latest a) w))
    ++ [EOut (CurrentVersion c); ERead; EExists] /\
  writes (trace_of a w) = 0.
Proof.
  unfold final_world. unfold_spec.
  destruct a as [chk dry ver u], w as [f wr ft pg].
  split_cases; finish.
Qed.

Lemma main_stops_without_latest_witness :
  exit_code default_args world_1_15_7 = 1%Z /\
  trace_of default_args world_1_15_7
  = [EErr PlaywrightNotInstalled; EImport;
     EOut (CurrentVersion (codes "1.15.7")); ERead; EExists].
Proof.
  destruct (@main_stops_without_latest default_args world_1_15_7
              (codes "1.15.7") eq_refl eq_refl) as (H1 & _ & H3 & _).
  split; [exact H1|exact H3].
Defined.

Lemma no_segment_checked (u : pystr) :
  search TARBALL_VERSION_PATTERN u = None -> forall p, ~ segment_at u p.
Proof.
  intros H p (t & b & q & Ht & Hb & E).
  assert (Hs : segment_at
                 (p ++ [chr "/"] ++ t ++ [chr "-"] ++ b ++ [chr "/"] ++ q) p)
    by (exists t, b, q; auto).
  apply segment_at_match in Hs. apply Hs.
  exact (@search_none_inv _ _ H p _ E).
Qed.

(** X7. A [--url] that holds no version segment ends the run with status 1:
    the failure is reported, the live page is not tried instead, and the
    file is neither read again nor written. *)
Theorem unparseable_url_exits (a : args) (w : world) (u c : pystr) :
  current_of w = Some c -> truthy (version a) = None ->
  url a = Some u -> u <> [] -> (forall p, ~ segment_at u p) ->
  exit_code a w = 1%Z /\
  final_world a w = w /\
  trace_of a w
  = [EErr (CannotParseURL u); EOut (CurrentVersion c); ERead; EExists].
Proof.
  intros Hc Hv Hu Hne Hnone.
  pose proof (@search_tarball_none u Hnone) as Hs.
  unfold final_world in *. unfold_spec.
  destruct a as [chk dry ver url0], w as [f wr ft pg].
  cbn [version url] in *. subst url0.
  destruct u as [|c0 u]; [contradiction|].
  split_cases; finish.
Qed.

Lemma unparseable_url_exits_witness :
  exit_code bad_url_args world_1_15_7 = 1%Z /\
  trace_of bad_url_args world_1_15_7
  = [EErr (CannotParseURL (codes "https://x/latest/Antigravity.tar.gz"));
     EOut (CurrentVersion (codes "1.15.7")); ERead; EExists].
Proof.
  destruct (@unparseable_url_exits bad_url_args world_1_15_7
              (codes "https://x/latest/Antigravity.tar.gz") (codes "1.15.7")
              eq_refl eq_refl eq_refl) as (H1 & _ & H3).
  - discriminate.
  - apply no_segment_checked. reflexivity.
  - split; [exact H1|exact H3].
Defined.

(** ** [main]: the comparison and what follows *)

Lemma main_same_run (a : args) (w : world) (c : pystr) :
  current_of w = Some c -> latest_of a w = Some c ->
  run (main a) w
  = (Exit 0%Z,
     {| st_world := w;
        st_trace := [EOut AlreadyUpToDate; EOut (LatestVersion c)]
                    ++ st_trace (snd (run (determine_latest a) w))
                    ++ [EOut (CurrentVersion c); ERead; EExists] |}).
Proof.
  unfold_spec.
  destruct a as [chk dry ver u], w as [f wr ft pg].
  split_cases; finish.
Qed.

Lemma latest_of_set_file (a : args) (w : world) (text : pystr) :
  run (determine_latest a) (set_file text w)
  = (fst (run (determine_latest a) w),
     {| st_world := set_file text w;
        st_trace := st_trace (snd (run (determine_latest a) w)) |}).
Proof.
  unfold_script.
  destruct a as [chk dry ver u], w as [f wr ft pg].
  split_cases; finish.
Qed.

(** X8. When the resolved latest version equals the current one, [main]
    prints "Already up to date" and ends with status 0 whatever the mode:
    the file is read once and never written, the world is as before, and
    the output is, in order, that of [get_current_version], the current
    version, that of the resolution, the latest version and the verdict. *)
Theorem up_to_date_run (a : args) (w : world) (c : pystr) :
  current_of w = Some c -> latest_of a w = Some c ->
  exit_code a w = 0%Z /\
  final_world a w = w /\
  trace_of a w
  = [EOut AlreadyUpToDate; EOut (LatestVersion c)]
    ++ st_trace (snd (run (determine_latest a) w))
    ++ [EOut (CurrentVersion c); ERead; EExists].
Proof.
  intros Hc Hl. unfold exit_code, final_world, trace_of.
  rewrite (@main_same_run a w c Hc Hl). repeat split.
Qed.

Lemma up_to_date_run_witness :
  exit_code same_version_args world_1_15_7 = 0%Z /\
  trace_of same_version_args world_1_15_7
  = [EOut AlreadyUpToDate; EOut (LatestVersion (codes "1.15.7"));
     EOut (CurrentVersion (codes "1.15.7")); ERead; EExists].
Proof.
  destruct (@up_to_date_run same_version_args world_1_15_7 (codes "1.15.7")
              eq_refl eq_refl) as (H1 & _ & H3).
  split; [exact H1|exact H3].
Defined.

Lemma sub_defined (v s : pystr) :
  no_backslash (prefix ++ v) = true ->
  exists new, sub VERSION_PATTERN (prefix ++ v) s = Some new.
Proof.
  intros Hv. destruct (split_exists s) as (segs & tail & Hw & ->).
  rewrite (@sub_literal v segs tail Hv Hw). eauto.
Qed.

(** X9. [main] never falls off its end: every run stops in [sys.exit] or
    in an exception. Status 1 is set by [sys.exit] in three places only:
    no current version, no latest version, or [--check] with differing
    versions. The last branch of [main] (line 172) never runs: once
    [get_current_version] has found a version the file exists, so
    [update_version] does not return [False]. *)
Theorem main_exit_paths (a : args) (w : world) :
  (forall u, fst (run (main a) w) <> Ret u) /\
  (forall l d, current_of w <> None ->
               fst (run (update_version l d) w) <> Ret false) /\
  (fst (run (main a) w) = Exit 1%Z ->
   current_of w = None \/ latest_of a w = None \/
   (check a = true /\ same_version a w = false)).
Proof.
  unfold_spec.
  destruct a as [chk dry ver u], w as [f wr ft pg].
  split; [|split].
  - intros r. split_cases; discriminate.
  - intros l d. split_cases; try congruence.
  - split_cases; intros; try discriminate; auto.
Qed.

Ltac sub_absurd :=
  match goal with
  | H : sub VERSION_PATTERN (prefix ++ ?l) ?s = None |- _ =>
      let new := fresh in let E := fresh in
      destruct (@sub_defined l s) as (new & E);
      [|rewrite E in H; discriminate H]
  end.

(** X10. The replacement template is rejected - [main] ends with
    [re.error], or with [IndexError] for a group name the pattern lacks -
    only at the patch step and only when [--version] holds a backslash;
    the exception is the one the template parser raises on
    [antigravity/<value>].  A version read from a URL or from the page is
    always an acceptable template. *)
Theorem template_errors_need_backslash (a : args) (w : world) (e : exn) :
  fst (run (main a) w) = Raise e -> e = ReError \/ e = IndexError ->
  reaches_patch a w = true /\
  exists v, version a = Some v /\ no_backslash v = false /\
            rejected_as (prefix ++ v) = e.
Proof.
  intros H He. revert H. unfold_spec.
  destruct a as [chk dry ver u], w as [f wr ft pg].
  split_cases; intros H; try discriminate H;
    injection H as H; subst e;
    try (destruct He; discriminate).
  all: try (split; [reflexivity|]; eexists; split; [reflexivity|];
            split; [|reflexivity];
            match goal with
            | |- no_backslash ?v = false =>
                destruct (no_backslash v) eqn:Hb; [|reflexivity]
            end;
            exfalso; sub_absurd; apply no_backslash_prefix; assumption).
  all: try (exfalso; token_of_search; sub_absurd; apply token_literal;
            now apply version_token_iff).
Qed.

Lemma template_errors_need_backslash_witness :
  fst (run (main group_name_args) world_1_15_7) = Raise IndexError /\
  fst (run (main bad_template_args) world_1_15_7) = Raise ReError /\
  reaches_patch group_name_args world_1_15_7 = true.
Proof.
  assert (H1 : fst (run (main group_name_args) world_1_15_7)
               = Raise IndexError) by (vm_compute; reflexivity).
  assert (H2 : fst (run (main bad_template_args) world_1_15_7)
               = Raise ReError) by (vm_compute; reflexivity).
  split; [exact H1|split; [exact H2|]].
  exact (proj1 (@template_errors_need_backslash group_name_args world_1_15_7
                  IndexError H1 (or_intror eq_refl))).
Defined.

(** ** [update_version]: what the patch does to the file *)

Lemma update_version_world (w : world) (x : pystr) (segs : list segment)
      (tail : pystr) :
  tracked w = Contents (render segs tail) -> writable w = true ->
  well_split segs tail -> is_token x ->
  fst (run (update_version x false) w) = Ret true /\
  st_world (snd (run (update_version x false) w))
  = set_file (render (set_tokens x segs) tail) w.
Proof.
  intros Hf Hw Hs Hx. unfold run. rewrite update_version_run.
  cbn [st_world]. rewrite Hf, (@sub_literal x segs tail (token_literal Hx) Hs).
  destruct (str_eqb _ _) eqn:E.
  - apply str_eqb_eq in E. rewrite <- E. split; [reflexivity|].
    destruct w; cbn in *; subst. reflexivity.
  - rewrite Hw. split; reflexivity.
Qed.

Lemma set_tokens_twice (x y : pystr) (segs : list segment) :
  set_tokens x (set_tokens y segs) = set_tokens x segs.
Proof. unfold set_tokens. rewrite map_map. reflexivity. Qed.

(** X11. Patches compose, and the last one wins: on a writable file,
    patching to [y] and then to [x] leaves the world exactly as patching
    to [x] at once does; and patching to [x] a second time finds nothing
    to change and writes nothing. *)
Theorem update_last_wins (w : world) (s x y : pystr) :
  tracked w = Contents s -> writable w = true ->
  version_token x = true -> version_token y = true ->
  let after v w0 := st_world (snd (run (update_version v false) w0)) in
  after x (after y w) = after x w /\
  run (update_version x false) (after x w)
  = (Ret true,
     {| st_world := after x w;
        st_trace := [EOut NoChangesNeeded; ERead; EExists] |}).
Proof.
  intros Hf Hw Hx Hy after. subst after. cbv beta.
  apply version_token_iff in Hx, Hy.
  destruct (split_exists s) as (segs & tail & Hs & ->).
  destruct (@update_version_world w x segs tail Hf Hw Hs Hx) as [_ Ex].
  destruct (@update_version_world w y segs tail Hf Hw Hs Hy) as [_ Ey].
  rewrite Ex, Ey.
  pose proof (@well_split_set_tokens x segs tail Hx Hs) as Hsx.
  pose proof (@well_split_set_tokens y segs tail Hy Hs) as Hsy.
  split.
  - destruct (@update_version_world
                (set_file (render (set_tokens y segs) tail) w) x
                (set_tokens y segs) tail eq_refl Hw Hsy Hx) as [_ E].
    rewrite E, set_tokens_twice. reflexivity.
  - unfold run. rewrite update_version_run. cbn [st_world set_file tracked].
    rewrite (@sub_literal x _ tail (token_literal Hx) Hsx), set_tokens_twice.
    rewrite str_eqb_refl. reflexivity.
Qed.

Lemma update_last_wins_witness :
  tracked (st_world (snd (run (update_version (codes "1.15.8") false)
     (st_world (snd (run (update_version (codes "2.0.0") false)
                         world_two_tokens))))))
  = tracked (st_world (snd (run (update_version (codes "1.15.8") false)
                                world_two_tokens))).
Proof.
  destruct (@update_last_wins world_two_tokens _ (codes "1.15.8")
              (codes "2.0.0") eq_refl eq_refl eq_refl eq_refl) as [H _].
  exact (f_equal tracked H).
Defined.

Lemma render_fixed_tokens (x : pystr) (segs : list segment) (tail : pystr) :
  is_token x -> well_split segs tail ->
  render (set_tokens x segs) tail = render segs tail ->
  forall t, In t (tokens segs) -> t = x.
Proof.
  intros Hx. induction segs as [|[g t] segs IH]; simpl; intros Hs E.
  - intros t [].
  - destruct Hs as (_ & Ht & Hd & Hs).
    apply app_inv_head in E. apply (app_inv_head prefix) in E.
    apply token_unique in E as [E1 E2]; auto.
    + intros t' [<-|Hin]; [congruence|]. now apply IH.
    + fold (set_tokens x segs). now rewrite render_head.
Qed.

(** X12. [update_version] detects a change exactly: on a file whose
    occurrences carry the tokens [tokens segs], patching to a version token
    [x] reports "No changes needed" if and only if every occurrence
    already carries [x], in either mode. *)
Theorem no_changes_iff_all_tokens (w : world) (segs : list segment)
        (tail x : pystr) (d : bool) :
  tracked w = Contents (render segs tail) -> well_split segs tail ->
  version_token x = true ->
  (said_no_changes (st_trace (snd (run (update_version x d) w))) = true <->
   forall t, In t (tokens segs) -> t = x).
Proof.
  intros Hf Hs Hx. apply version_token_iff in Hx.
  unfold run. rewrite update_version_run. cbn [st_world]. rewrite Hf.
  rewrite (@sub_literal x segs tail (token_literal Hx) Hs).
  split.
  - intros H. apply (@render_fixed_tokens x segs tail Hx Hs).
    destruct (str_eqb _ _) eqn:E; [now apply str_eqb_eq in E|].
    destruct d; [discriminate H|]. destruct (writable w); discriminate H.
  - intros H. rewrite (@set_tokens_same x segs H), str_eqb_refl.
    reflexivity.
Qed.

Lemma no_changes_iff_all_tokens_witness :
  said_no_changes
    (st_trace (snd (run (update_version (codes "1.15.8") false)
                        world_one_token))) = true.
Proof.
  apply (@no_changes_iff_all_tokens world_one_token
           [(codes "UA = ", codes "1.15.8")] (codes " linux")
           (codes "1.15.8") false eq_refl).
  - apply well_split_checked. reflexivity.
  - reflexivity.
  - intros t [<-|[]]. reflexivity.
Defined.

(** ** [main]: the patch step, end to end *)

(** A replacement without a backslash that is not the current version
    always changes the text, whatever it is. *)

Lemma occurrence_positions (g c r u c0 q : pystr) :
  occ_free g -> is_token c -> is_token c0 ->
  g ++ prefix ++ c ++ r = u ++ prefix ++ c0 ++ q ->
  u = g \/ exists e, u = g ++ prefix ++ c ++ e /\ r = e ++ prefix ++ c0 ++ q.
Proof.
  intros Hg Hc Hc0 H.
  apply app_eq_app in H as [k [[-> H]|[-> H]]].
  - destruct k as [|x k]; [left; now rewrite app_nil_r|]. exfalso.
    assert (Hk : x :: k <> []) by discriminate.
    symmetry in H.
    destruct (@occurrence_inside (x :: k) (c ++ r) c0 q Hk Hc0 H) as [u' E].
    apply (Hg u). exists c0, u'. split; [assumption|]. now rewrite E.
  - destruct k as [|x k]; [left; now rewrite app_nil_r|]. right.
    assert (Hk : x :: k <> []) by discriminate.
    symmetry in H.
    destruct (@occurrence_inside (x :: k) (c0 ++ q) c r Hk Hc H) as [e E].
    exists e. split; [now rewrite E|].
    rewrite E in H. rewrite <- !app_assoc in H.
    apply app_inv_head in H. apply app_inv_head in H. now symmetry.
Qed.

Lemma shift_absurd (l c0 d0 : pystr) :
  is_token c0 -> l = c0 ++ d0 ->
  forall (segs : list segment) (tail d : pystr),
    well_split segs tail -> d <> [] ->
    render segs tail = d ++ render (set_tokens l segs) tail -> False.
Proof.
  intros Hc0 ->. induction segs as [|[g c] segs IH]; intros tail d Hw Hd E.
  - simpl in E. apply (f_equal (@List.length _)) in E.
    rewrite length_app in E. destruct d; [contradiction|simpl in E; lia].
  - cbn [render set_tokens map fst] in E.
    fold (set_tokens (c0 ++ d0) segs) in E.
    destruct Hw as (Hg & Hc & _ & Hw).
    assert (E' : g ++ prefix ++ c ++ render segs tail
                 = (d ++ g) ++ prefix ++ c0
                   ++ (d0 ++ render (set_tokens (c0 ++ d0) segs) tail))
      by (rewrite E, <- !app_assoc; reflexivity).
    apply occurrence_positions in E' as [E'|(e & _ & E')]; auto.
    + apply (f_equal (@List.length _)) in E'. rewrite length_app in E'.
      destruct d; [contradiction|simpl in E'; lia].
    + apply (IH tail (e ++ prefix ++ c0 ++ d0) Hw).
      * rewrite prefix_eq. destruct e; discriminate.
      * rewrite E', <- !app_assoc. reflexivity.
Qed.

Lemma periodic_absurd (d : pystr) (a : codepoint) :
  d <> [] -> ~ In a d ->
  forall n (g u v : pystr),
    List.length g <= n -> g ++ a :: u = d ++ g ++ v -> False.
Proof.
  intros Hd Ha. induction n as [|n IH]; intros g u v Hn E.
  - destruct g; [|simpl in Hn; lia]. simpl in E.
    destruct d as [|x d]; [contradiction|].
    injection E as <- _. apply Ha. now left.
  - apply app_eq_app in E as [k [[-> E]|[-> E]]].
    + apply (IH k u v).
      * rewrite length_app in Hn. destruct d; [contradiction|].
        simpl in Hn. lia.
      * rewrite <- E, <- app_assoc. reflexivity.
    + destruct k as [|x k].
      * rewrite app_nil_r in *. simpl in E.
        destruct g as [|y g]; [contradiction|].
        injection E as <- _. apply Ha. now left.
      * injection E as <- _. apply Ha. apply in_or_app. right. now left.
Qed.

Lemma literal_render_changes (g c l : pystr) (segs : list segment)
      (tail : pystr) :
  well_split ((g, c) :: segs) tail -> c <> l ->
  render (set_tokens l ((g, c) :: segs)) tail
  <> render ((g, c) :: segs) tail.
Proof.
  intros (Hg & Hc & _ & Hw) Hne E.
  cbn [render set_tokens map fst] in E. fold (set_tokens l segs) in E.
  apply app_inv_head in E. apply (app_inv_head prefix) in E.
  apply app_eq_app in E as [d [[-> E]|[-> E]]].
  - (* the replacement goes on: it starts with the current token *)
    destruct d as [|x d]; [now rewrite app_nil_r in Hne|].
    assert (Hd : x :: d <> []) by discriminate.
    apply (@shift_absurd (c ++ x :: d) c (x :: d) Hc eq_refl segs tail
             (x :: d) Hw Hd).
    assumption.
  - (* the current token goes on: it is longer than the replacement *)
    destruct d as [|x d]; [now rewrite app_nil_r in Hne|].
    assert (Hd : x :: d <> []) by discriminate.
    assert (Ha : ~ In 97%N (x :: d)).
    { intros Hin. apply (token_no_a Hc). apply in_or_app. now right. }
    destruct segs as [|[g' c'] segs].
    + cbn [render set_tokens map] in E.
      apply (f_equal (@List.length _)) in E.
      rewrite length_app in E. simpl in E. lia.
    + cbn [render set_tokens map fst] in E. rewrite prefix_eq in E.
      cbn [app] in E.
      refine (@periodic_absurd (x :: d) 97%N Hd Ha (List.length g') g' _ _
                (le_n _) _).
      exact E.
Qed.

Lemma literal_update_changes (s c l new : pystr) (m : rematch) :
  search VERSION_PATTERN s = Some m -> m_group1 m = Some c ->
  no_backslash (prefix ++ l) = true -> c <> l ->
  sub VERSION_PATTERN (prefix ++ l) s = Some new -> new <> s.
Proof.
  intros Hs Hg Hl Hcl Hsub.
  destruct (split_exists s) as (segs & tail & Hw & ->).
  destruct segs as [|[g t] segs].
  - simpl in *. rewrite (search_occ_free Hw) in Hs. discriminate.
  - rewrite (@search_render g t segs tail Hw) in Hs.
    inversion Hs; subst m. simpl in Hg.
    inversion Hg; subst t.
    rewrite (@sub_literal l _ tail Hl Hw) in Hsub.
    inversion Hsub; subst new.
    now apply literal_render_changes.
Qed.

Lemma latest_of_nonempty (a : args) (w : world) (l : pystr) :
  latest_of a w = Some l -> l <> [].
Proof.
  unfold_spec. destruct a as [chk dry ver u], w as [f wr ft pg].
  split_cases; finish.
Qed.

Lemma main_patch_literal (a : args) (w : world) (g t : pystr)
      (segs : list segment) (tail l : pystr) :
  tracked w = Contents (render ((g, t) :: segs) tail) ->
  well_split ((g, t) :: segs) tail ->
  latest_of a w = Some l -> no_backslash (prefix ++ l) = true -> t <> l ->
  check a = false ->
  run (main a) w =
  let new := render (set_tokens l ((g, t) :: segs)) tail in
  let seen := [EOut (LatestVersion l)]
              ++ st_trace (snd (run (determine_latest a) w))
              ++ [EOut (CurrentVersion t); ERead; EExists] in
  if dry_run a then
    (Exit 0%Z,
     {| st_world := w;
        st_trace := [EOut (WouldUpdate l); ERead; EExists] ++ seen |})
  else if writable w then
    (Exit 0%Z,
     {| st_world := set_file new w;
        st_trace := [EOut (Updated l); EWrite new; ERead; EExists] ++ seen |})
  else
    (Raise OSError,
     {| st_world := after_failed_write w;
        st_trace := [EWrite new; ERead; EExists] ++ seen |}).
Proof.
  intros Hf Hs Hl Hx Hne Hc.
  pose proof (search_render Hs) as Hsearch.
  pose proof (@sub_literal l _ tail Hx Hs) as Hsub.
  assert (Hnew : str_eqb (render ((g, t) :: segs) tail)
                         (render (set_tokens l ((g, t) :: segs)) tail)
                 = false).
  { apply str_eqb_neq. intros E. symmetry in E.
    apply (@literal_update_changes _ t l _ _ Hsearch eq_refl Hx Hne Hsub E). }
  assert (Ht : t <> []) by (apply token_nonempty, Hs).
  assert (Hl0 : l <> []) by apply (latest_of_nonempty _ _ Hl).
  assert (Htl : str_eqb t l = false) by now apply str_eqb_neq.
  cbv zeta.
  set (new := render (set_tokens l ((g, t) :: segs)) tail) in *.
  set (s := render ((g, t) :: segs) tail) in *.
  set (rest := render segs tail) in *.
  clearbody new s rest. clear Hs.
  unfold_spec.
  destruct a as [chk dry ver u], w as [f wr ft pg].
  cbn [tracked check] in Hf, Hc. subst f chk.
  repeat (step_script; rewrite ?Hsearch, ?Hsub, ?Hnew, ?Htl in *;
          try discriminate;
          match goal with
          | |- context [match ?x with _ => _ end] => split_on x
          | H : context [match ?x with _ => _ end] |- _ => split_on x
          end);
    step_script; rewrite ?Hsearch, ?Hsub, ?Hnew, ?Htl in *; finish.
Qed.

Lemma main_patch_run (a : args) (w : world) (g t : pystr)
      (segs : list segment) (tail l : pystr) :
  tracked w = Contents (render ((g, t) :: segs) tail) ->
  well_split ((g, t) :: segs) tail ->
  latest_of a w = Some l -> version_token l = true -> t <> l ->
  check a = false ->
  run (main a) w =
  let new := render (set_tokens l ((g, t) :: segs)) tail in
  let seen := [EOut (LatestVersion l)]
              ++ st_trace (snd (run (determine_latest a) w))
              ++ [EOut (CurrentVersion t); ERead; EExists] in
  if dry_run a then
    (Exit 0%Z,
     {| st_world := w;
        st_trace := [EOut (WouldUpdate l); ERead; EExists] ++ seen |})
  else if writable w then
    (Exit 0%Z,
     {| st_world := set_file new w;
        st_trace := [EOut (Updated l); EWrite new; ERead; EExists] ++ seen |})
  else
    (Raise OSError,
     {| st_world := after_failed_write w;
        st_trace := [EWrite new; ERead; EExists] ++ seen |}).
Proof.
  intros Hf Hs Hl Hx Hne Hc. apply version_token_iff in Hx.
  apply main_patch_literal; auto. now apply token_literal.
Qed.

Lemma determine_latest_quiet (a : args) (w : world) :
  filter touches_file (st_trace (snd (run (determine_latest a) w))) = [].
Proof.
  unfold_script.
  destruct a as [chk dry ver u], w as [f wr ft pg].
  split_cases; reflexivity.
Qed.

(** X13. The patch step of [main], for a latest version from any source
    that is a version token different from the current one, outside
    [--check]: a dry run reports the change and leaves the world as it
    was; a normal run on a writable file rewrites every occurrence, exits
    with 0, and the file then reads back as the latest version; when the
    write fails the run ends with an [OSError], status 1, after the one
    write attempt, and the file is as before only if the open was refused:
    a write that fails after the open leaves what had reached the
    truncated file. *)
Theorem main_applies_latest (a : args) (w : world) (g t : pystr)
        (segs : list segment) (tail l : pystr) :
  tracked w = Contents (render ((g, t) :: segs) tail) ->
  well_split ((g, t) :: segs) tail ->
  latest_of a w = Some l -> version_token l = true -> t <> l ->
  check a = false ->
  let new := render (set_tokens l ((g, t) :: segs)) tail in
  (dry_run a = true ->
   exit_code a w = 0%Z /\ final_world a w = w /\
   hd_error (trace_of a w) = Some (EOut (WouldUpdate l))) /\
  (dry_run a = false -> writable w = true ->
   exit_code a w = 0%Z /\ final_world a w = set_file new w /\
   file_events (trace_of a w)
   = [EWrite new; ERead; EExists; ERead; EExists] /\
   hd_error (trace_of a w) = Some (EOut (Updated l)) /\
   current_of (final_world a w) = Some l) /\
  (dry_run a = false -> writable w = false ->
   fst (run (main a) w) = Raise OSError /\ exit_code a w = 1%Z /\
   file_events (trace_of a w)
   = [EWrite new; ERead; EExists; ERead; EExists] /\
   (fault w = OpenRefused -> final_world a w = w) /\
   (forall kept, fault w = WriteTorn kept ->
                 final_world a w = set_file kept w)).
Proof.
  intros Hf Hs Hl Hx Hne Hc new.
  unfold exit_code, final_world, trace_of.
  rewrite (@main_patch_run a w g t segs tail l Hf Hs Hl Hx Hne Hc).
  cbv zeta. fold new.
  pose proof (determine_latest_quiet a w) as Hq.
  split; [|split]; intros Hd; rewrite Hd; [| |].
  - repeat split.
  - intros Hw. rewrite Hw. cbn [fst snd st_world st_trace exit_status].
    repeat split.
    + unfold file_events. cbn [app filter touches_file].
      rewrite filter_app, Hq. reflexivity.
    + apply version_token_iff in Hx.
      pose proof (@well_split_set_tokens l _ tail Hx Hs) as Hs'.
      unfold current_of, run. rewrite get_current_version_run.
      cbn [st_world set_file tracked]. subst new.
      cbn [set_tokens map fst]. fold (set_tokens l segs).
      rewrite (@search_render g l (set_tokens l segs) tail Hs').
      cbn. destruct l; [now apply token_nonempty in Hx|reflexivity].
  - intros Hw. rewrite Hw. cbn [fst snd st_world st_trace exit_status].
    unfold after_failed_write.
    split; [reflexivity|split; [reflexivity|split; [|split]]].
    + unfold file_events. cbn [app filter touches_file].
      rewrite filter_app, Hq. reflexivity.
    + intros ->. reflexivity.
    + intros kept ->. reflexivity.
Qed.

Lemma main_applies_latest_witness :
  exit_code url_args world_two_segments = 0%Z /\
  final_world url_args world_two_segments
  = set_file
      (codes "// was antigravity/1.16.2 UA = antigravity/1.16.2 linux")
      world_two_segments.
Proof.
  pose proof (@main_applies_latest url_args world_two_segments
                (codes "// was ") (codes "1.14.0")
                [(codes " UA = ", codes "1.15.7")] (codes " linux")
                (codes "1.16.2") eq_refl) as H.
  assert (W : well_split two_segments (codes " linux")).
  { apply (@well_split_checked two_segments (codes " linux")).
    vm_compute. reflexivity. }
  assert (L : latest_of url_args world_two_segments = Some (codes "1.16.2"))
    by (vm_compute; reflexivity).
  assert (V : version_token (codes "1.16.2") = true)
    by (vm_compute; reflexivity).
  assert (N : codes "1.14.0" <> codes "1.16.2") by discriminate.
  specialize (H W L V N eq_refl). destruct H as (_ & H & _).
  destruct (H eq_refl eq_refl) as (H1 & H2 & _).
  split; [exact H1|]. rewrite H2. vm_compute. reflexivity.
Defined.

Lemma quiet_no_writes (t : list event) :
  filter touches_file t = [] -> List.length (filter is_write t) = 0.
Proof.
  induction t as [|e t IH]; [reflexivity|].
  destruct e; cbn; try discriminate; auto.
Qed.

(** X14. A normal run converges: on a writable file with an occurrence and
    a latest version that is a version token, the run exits with 0 and
    leaves a file whose current version is the latest one; running [main]
    again with the same arguments then reports "Already up to date",
    writes nothing and leaves that world as it is. *)
Theorem second_run_changes_nothing (a : args) (w : world) (s l : pystr) :
  tracked w = Contents s -> writable w = true -> has_occurrence s ->
  latest_of a w = Some l -> version_token l = true ->
  check a = false -> dry_run a = false ->
  exit_code a w = 0%Z /\
  current_of (final_world a w) = Some l /\
  exit_code a (final_world a w) = 0%Z /\
  final_world a (final_world a w) = final_world a w /\
  writes (trace_of a (final_world a w)) = 0 /\
  hd_error (trace_of a (final_world a w)) = Some (EOut AlreadyUpToDate).
Proof.
  intros Hf Hw Ho Hl Hx Hc Hd.
  destruct (split_exists s) as (segs & tail & Hs & ->).
  pose proof (@split_has_occurrence segs tail Hs Ho) as Hn.
  destruct segs as [|[g t] segs]; [contradiction|]. clear Hn Ho.
  assert (Hcur : current_of (final_world a w) = Some l /\
                 latest_of a (final_world a w) = Some l /\
                 exit_code a w = 0%Z).
  { destruct (str_eqb t l) eqn:E.
    - apply str_eqb_eq in E. subst t.
      assert (Hcw : current_of w = Some l).
      { unfold current_of, run. rewrite get_current_version_run.
        cbn [st_world]. rewrite Hf, (search_render Hs). cbn.
        apply version_token_iff, token_nonempty in Hx.
        destruct l; [contradiction|reflexivity]. }
      unfold final_world, exit_code.
      rewrite (@main_same_run a w l Hcw Hl). cbn [snd fst st_world].
      repeat split; assumption.
    - apply str_eqb_neq in E.
      unfold final_world, exit_code.
      rewrite (@main_patch_run a w g t segs tail l Hf Hs Hl Hx E Hc).
      cbv zeta. rewrite Hd, Hw. cbn [snd fst st_world exit_status].
      apply version_token_iff in Hx.
      pose proof (@well_split_set_tokens l _ tail Hx Hs) as Hs'.
      repeat split.
      + unfold current_of, run. rewrite get_current_version_run.
        cbn [st_world set_file tracked].
        cbn [set_tokens map fst]. fold (set_tokens l segs).
        rewrite (@search_render g l (set_tokens l segs) tail Hs').
        cbn. destruct l; [now apply token_nonempty in Hx|reflexivity].
      + unfold latest_of in *. rewrite latest_of_set_file. exact Hl. }
  destruct Hcur as (H1 & H2 & H3).
  unfold exit_code, final_world, trace_of in *.
  rewrite (@main_same_run a _ l H1 H2).
  cbn [fst snd st_world st_trace exit_status].
  repeat split; try assumption.
  unfold writes. cbn [app filter is_write]. rewrite filter_app.
  cbn [app filter is_write List.length].
  rewrite app_nil_r.
  apply quiet_no_writes, determine_latest_quiet.
Qed.

Lemma second_run_changes_nothing_witness :
  exit_code url_args world_two_segments = 0%Z /\
  current_of (final_world url_args world_two_segments)
  = Some (codes "1.16.2") /\
  exit_code url_args (final_world url_args world_two_segments) = 0%Z.
Proof.
  pose proof (@second_run_changes_nothing url_args world_two_segments
                (render two_segments (codes " linux")) (codes "1.16.2")
                eq_refl eq_refl) as H.
  assert (O : has_occurrence (render two_segments (codes " linux"))).
  { exists (codes "// was "), (codes "1.14.0"),
      (codes " UA = antigravity/1.15.7 linux").
    split; [apply version_token_iff|]; vm_compute; reflexivity. }
  assert (L : latest_of url_args world_two_segments = Some (codes "1.16.2"))
    by (vm_compute; reflexivity).
  assert (V : version_token (codes "1.16.2") = true)
    by (vm_compute; reflexivity).
  specialize (H O L V eq_refl eq_refl).
  destruct H as (H1 & H2 & H3 & _).
  split; [exact H1|split; [exact H2|exact H3]].
Defined.

(** ** The exit code *)






